(** * InstanceSaveMgr: instance bindings, reset scheduler and registry

    A shallow embedding of [src/game/InstanceSaveMgr.h] (MaNGOS).

    The header defines inline: the reference lists of [InstanceSave] and
    their counters, [InstanceResetEvent::operator==], and the per-cohort
    reset-time table of [InstanceResetScheduler].  The members that the
    header only declares ([UnloadIfEmpty], [ScheduleReset], [Update],
    [AddInstanceSave], the constructor of [InstanceSave]) are modelled from
    the specification; each such definition says so in its comment. *)

From Stdlib Require Import ZArith List Bool Lia Sorted.
From stdpp Require Import base gmap.
Import ListNotations.
Local Open Scope Z_scope.

(** ** Scalar types *)

(** [Player*] and [Group*]: a handle is the pointer value. *)
Definition Player := Z.
Definition Group := Z.

(** [time_t]: a signed integer wide enough for every timestamp used. *)
Definition time_t := Z.

(** Modelled from the spec: the enumeration [Difficulty] (declared in
    DBCEnums.h, which is not part of the sources), by the integer value of
    its enumerator. *)
Definition Difficulty := Z.

(** Conversion to [uint8], as done by a function whose return type is
    [uint8]: reduction modulo 2^8. *)
Definition to_uint8 (n : Z) : Z := n mod 256.
Definition to_uint16 (n : Z) : Z := n mod 65536.
Definition to_uint32 (n : Z) : Z := n mod 4294967296.

(** [std::list<T*>::remove(value)]: erases every element equal to
    [value], keeping the order of the others. *)
Fixpoint list_remove (x : Z) (l : list Z) : list Z :=
  match l with
  | [] => []
  | y :: l' => if Z.eqb y x then list_remove x l' else y :: list_remove x l'
  end.

(** Number of occurrences of a handle in a reference list. *)
Fixpoint occurrences (x : Z) (l : list Z) : nat :=
  match l with
  | [] => O
  | y :: l' => if Z.eqb y x then S (occurrences x l') else occurrences x l'
  end.

(** ** class InstanceSave *)

Module InstanceSave.

Record t : Type := mk {
  m_playerList : list Player;
  m_groupList : list Group;
  m_resetTime : time_t;
  m_instanceid : Z;
  m_mapid : Z;
  m_difficulty : Difficulty;
  m_canReset : bool;
  m_usedByMap : bool
}.

Definition with_playerList (l : list Player) (b : t) : t :=
  mk l (m_groupList b) (m_resetTime b) (m_instanceid b) (m_mapid b)
     (m_difficulty b) (m_canReset b) (m_usedByMap b).

Definition with_groupList (l : list Group) (b : t) : t :=
  mk (m_playerList b) l (m_resetTime b) (m_instanceid b) (m_mapid b)
     (m_difficulty b) (m_canReset b) (m_usedByMap b).

Definition with_usedByMap (u : bool) (b : t) : t :=
  mk (m_playerList b) (m_groupList b) (m_resetTime b) (m_instanceid b)
     (m_mapid b) (m_difficulty b) (m_canReset b) u.

(** Modelled from the spec: the constructor [InstanceSave::InstanceSave]
    (declared only).  A binding is created without references, and
    [usedByMap] is set only by the map-lifecycle collaborator afterwards.
    The header takes [MapId] as [uint16] and [InstanceId] as [uint32]. *)
Definition new (MapId InstanceId : Z) (difficulty : Difficulty)
    (resetTime : time_t) (canReset : bool) : t :=
  mk [] [] resetTime (to_uint32 InstanceId) (to_uint16 MapId) difficulty
     canReset false.

(** [uint8 GetPlayerCount() { return m_playerList.size(); }] *)
Definition GetPlayerCount (b : t) : Z :=
  to_uint8 (Z.of_nat (length (m_playerList b))).

(** [uint8 GetGroupCount() { return m_groupList.size(); }] *)
Definition GetGroupCount (b : t) : Z :=
  to_uint8 (Z.of_nat (length (m_groupList b))).

Definition GetInstanceId (b : t) : Z := m_instanceid b.
Definition GetMapId (b : t) : Z := m_mapid b.
Definition GetResetTime (b : t) : time_t := m_resetTime b.
Definition GetDifficulty (b : t) : Difficulty := m_difficulty b.
Definition CanReset (b : t) : bool := m_canReset b.

(** [void SetResetTime(time_t resetTime) { m_resetTime = resetTime; }] *)
Definition SetResetTime (resetTime : time_t) (b : t) : t :=
  mk (m_playerList b) (m_groupList b) resetTime (m_instanceid b) (m_mapid b)
     (m_difficulty b) (m_canReset b) (m_usedByMap b).

(** [void SetCanReset(bool canReset) { m_canReset = canReset; }] *)
Definition SetCanReset (canReset : bool) (b : t) : t :=
  mk (m_playerList b) (m_groupList b) (m_resetTime b) (m_instanceid b)
     (m_mapid b) (m_difficulty b) canReset (m_usedByMap b).

(** Modelled from the spec: [InstanceSave::UnloadIfEmpty] (declared
    only).  The emptiness check: it reports [true], and the binding is
    then destroyed, exactly when both reference lists are empty and
    [m_usedByMap] is false. *)
Definition UnloadIfEmpty (b : t) : bool :=
  match m_playerList b, m_groupList b with
  | [], [] => negb (m_usedByMap b)
  | _, _ => false
  end.

(** [void AddPlayer(Player *player) { m_playerList.push_back(player); }] *)
Definition AddPlayer (player : Player) (b : t) : t :=
  with_playerList (m_playerList b ++ [player]) b.

(** [bool RemovePlayer(Player *player)
      { m_playerList.remove(player); return UnloadIfEmpty(); }]
    The result is the binding after the call and the returned flag. *)
Definition RemovePlayer (player : Player) (b : t) : t * bool :=
  let b' := with_playerList (list_remove player (m_playerList b)) b in
  (b', UnloadIfEmpty b').

(** [void AddGroup(Group *group) { m_groupList.push_back(group); }] *)
Definition AddGroup (group : Group) (b : t) : t :=
  with_groupList (m_groupList b ++ [group]) b.

(** [bool RemoveGroup(Group *group)
      { m_groupList.remove(group); return UnloadIfEmpty(); }] *)
Definition RemoveGroup (group : Group) (b : t) : t * bool :=
  let b' := with_groupList (list_remove group (m_groupList b)) b in
  (b', UnloadIfEmpty b').

(** [void SetUsedByMapState(bool state)
      { m_usedByMap = state; if (!state) UnloadIfEmpty(); }]
    The method returns nothing; the flag of the result records whether
    the emptiness check it ran destroyed the binding. *)
Definition SetUsedByMapState (state : bool) (b : t) : t * bool :=
  let b' := with_usedByMap state b in
  if negb state then (b', UnloadIfEmpty b') else (b', false).

(** The five calls a holder of the binding can make. *)
Inductive call : Type :=
| CallAddPlayer (p : Player)
| CallRemovePlayer (p : Player)
| CallAddGroup (g : Group)
| CallRemoveGroup (g : Group)
| CallSetUsedByMapState (state : bool).

(** One call: the binding afterwards, and whether the call destroyed it. *)
Definition exec (c : call) (b : t) : t * bool :=
  match c with
  | CallAddPlayer p => (AddPlayer p b, false)
  | CallRemovePlayer p => RemovePlayer p b
  | CallAddGroup g => (AddGroup g b, false)
  | CallRemoveGroup g => RemoveGroup g b
  | CallSetUsedByMapState state => SetUsedByMapState state b
  end.

(** A sequence of calls on a live binding.  A destroyed binding receives
    no further call, so the run ends at the first call that destroys it;
    the flag says whether that happened. *)
Fixpoint run (calls : list call) (b : t) : t * bool :=
  match calls with
  | [] => (b, false)
  | c :: calls' =>
      let (b', destroyed) := exec c b in
      if destroyed then (b', true) else run calls' b'
  end.

(** Both reference lists are empty and the map is not loaded. *)
Definition unreferenced (b : t) : Prop :=
  m_playerList b = [] /\ m_groupList b = [] /\ m_usedByMap b = false.

End InstanceSave.

(** ** struct InstanceResetEvent *)

Inductive ResetEventType : Type :=
| RESET_EVENT_DUNGEON
| RESET_EVENT_INFORM_1
| RESET_EVENT_INFORM_2
| RESET_EVENT_INFORM_3
| RESET_EVENT_INFORM_LAST.

(** The integer value of each enumerator, as the [enum] gives it. *)
Definition ResetEventType_value (ty : ResetEventType) : Z :=
  match ty with
  | RESET_EVENT_DUNGEON => 0
  | RESET_EVENT_INFORM_1 => 1
  | RESET_EVENT_INFORM_2 => 2
  | RESET_EVENT_INFORM_3 => 3
  | RESET_EVENT_INFORM_LAST => 4
  end.

(** [#define MAX_RESET_EVENT_TYPE 5] *)
Definition MAX_RESET_EVENT_TYPE : Z := 5.

Module InstanceResetEvent.

Record t : Type := mk {
  type : ResetEventType;
  difficulty : Difficulty;
  mapid : Z;
  instanceId : Z
}.

(** [InstanceResetEvent()] *)
Definition default : t := mk RESET_EVENT_DUNGEON 0 0 0.

(** [InstanceResetEvent(ResetEventType t, uint32 _mapid, Difficulty d,
      uint32 _instanceid)]: each argument is narrowed to the width of its
    field when stored.  [difficulty] is the 8-bit field
    [Difficulty difficulty :8], [mapid] is a [uint16] and [instanceId] a
    [uint32]; [type] is the 8-bit field [ResetEventType type :8], which
    holds every enumerator unchanged. *)
Definition make (ty : ResetEventType) (_mapid : Z) (d : Difficulty)
    (_instanceid : Z) : t :=
  mk ty (to_uint8 d) (to_uint16 _mapid) (to_uint32 _instanceid).

(** [bool operator == (const InstanceResetEvent& e)
      { return e.mapid == mapid && e.difficulty == difficulty
               && e.instanceId == instanceId; }] *)
Definition eqb (this e : t) : bool :=
  (mapid e =? mapid this) && (difficulty e =? difficulty this)
  && (instanceId e =? instanceId this).

End InstanceResetEvent.

(** ** class InstanceResetScheduler *)

Module InstanceResetScheduler.

(** An entry of [std::multimap<time_t, InstanceResetEvent>]. *)
Definition entry : Type := (Z * InstanceResetEvent.t)%type.

(** The scheduler's own fields.  The multimap is kept as the list of its
    entries in iteration order; the hash table is a finite map from the
    packed (map, difficulty) key. *)
Record t : Type := mk {
  m_resetTimeByMapDifficulty : gmap Z Z;
  m_resetTimeQueue : list entry
}.

(** Member functions thread the scheduler through: a computation returns
    a value and the scheduler afterwards. *)
Definition M (A : Type) : Type := t -> A * t.

Definition ret {A : Type} (a : A) : M A := fun s => (a, s).

Definition bind {A B : Type} (c : M A) (k : A -> M B) : M B :=
  fun s => let (a, s') := c s in k a s'.

Definition seq {A B : Type} (c : M A) (k : M B) : M B :=
  bind c (fun _ => k).

Definition with_queue (q : list entry) (s : t) : t :=
  mk (m_resetTimeByMapDifficulty s) q.

Section PackedKey.

(** The macro [MAKE_PAIR32] comes from a header that is not part of the
    sources; the table functions are read for any packing function. *)
Variable MAKE_PAIR32 : Z -> Z -> Z.

(** [time_t GetResetTimeFor(uint32 mapid, Difficulty d) const
      { itr = m_resetTimeByMapDifficulty.find(MAKE_PAIR32(mapid,d));
        return itr != m_resetTimeByMapDifficulty.end() ? itr->second : 0; }] *)
Definition GetResetTimeFor (mapid : Z) (d : Difficulty) : M time_t :=
  fun s =>
    (match m_resetTimeByMapDifficulty s !! MAKE_PAIR32 mapid d with
     | Some resetTime => resetTime
     | None => 0
     end, s).

(** [void SetResetTimeFor(uint32 mapid, Difficulty d, time_t t)
      { m_resetTimeByMapDifficulty[MAKE_PAIR32(mapid,d)] = t; }] *)
Definition SetResetTimeFor (mapid : Z) (d : Difficulty) (t0 : time_t) : M unit :=
  fun s =>
    (tt, mk (<[MAKE_PAIR32 mapid d := t0]> (m_resetTimeByMapDifficulty s))
            (m_resetTimeQueue s)).

End PackedKey.

(** [std::multimap::insert]: the new entry goes after every entry whose
    key is not greater than its own. *)
Fixpoint queue_insert (time : time_t) (event : InstanceResetEvent.t)
    (q : list entry) : list entry :=
  match q with
  | [] => [(time, event)]
  | (k, x) :: q' =>
      if k <=? time then (k, x) :: queue_insert time event q'
      else (time, event) :: q
  end.

(** Erase the first entry, in iteration order, whose event compares equal
    to [event]. *)
Fixpoint queue_remove_first (event : InstanceResetEvent.t)
    (q : list entry) : list entry :=
  match q with
  | [] => []
  | (k, x) :: q' =>
      if InstanceResetEvent.eqb x event then q'
      else (k, x) :: queue_remove_first event q'
  end.

(** Modelled from the spec: [InstanceResetScheduler::ScheduleReset]
    (declared only).  With [add] the event is inserted at key [time];
    without, the first queue entry whose event compares equal is removed,
    whatever [time] is. *)
Definition ScheduleReset (add : bool) (time : time_t)
    (event : InstanceResetEvent.t) : M unit :=
  fun s =>
    (tt, if add then with_queue (queue_insert time event (m_resetTimeQueue s)) s
         else with_queue (queue_remove_first event (m_resetTimeQueue s)) s).

(** The callback into the registry that firing an event performs. *)
Inductive callback : Type :=
| ResetOrWarnAll (mapid : Z) (d : Difficulty) (tier : ResetEventType)
| ResetInstance (mapid instanceId : Z).

(** Cohort-wide events have [instanceId == 0]. *)
Definition dispatch (e : InstanceResetEvent.t) : callback :=
  if InstanceResetEvent.instanceId e =? 0
  then ResetOrWarnAll (InstanceResetEvent.mapid e)
         (InstanceResetEvent.difficulty e) (InstanceResetEvent.type e)
  else ResetInstance (InstanceResetEvent.mapid e)
         (InstanceResetEvent.instanceId e).

Definition is_final_reset (e : InstanceResetEvent.t) : bool :=
  match InstanceResetEvent.type e with
  | RESET_EVENT_INFORM_LAST => InstanceResetEvent.instanceId e =? 0
  | _ => false
  end.

Section Firing.

(** The next cycle of a cohort (its warning ladder and final reset) is
    computed from content-template data, which is outside the sources:
    [next_cycle t e] is what the final reset [e], fired at key [t],
    schedules. *)
Variable next_cycle : time_t -> InstanceResetEvent.t -> list entry.

Fixpoint schedule_all (l : list entry) : M unit :=
  match l with
  | [] => ret tt
  | (k, x) :: l' => seq (ScheduleReset true k x) (schedule_all l')
  end.

(** Processing one popped entry, as far as the scheduler's own fields
    go: the registry callback ([dispatch]) acts on the registry, and a
    final reset of a cohort schedules the next cycle. *)
Definition process (time : time_t) (event : InstanceResetEvent.t) : M unit :=
  if is_final_reset event then schedule_all (next_cycle time event)
  else ret tt.

(** Modelled from the spec: the loop of [InstanceResetScheduler::Update]
    (declared only).  While the first entry's key is not after [now], pop
    it and process it.  [fired] accumulates the popped entries in the
    order they were processed; [None] means the fuel ran out. *)
Fixpoint Update_loop (fuel : nat) (now : time_t) (fired : list entry)
    (s : t) : option (list entry * t) :=
  match fuel with
  | O => None
  | S fuel' =>
      match m_resetTimeQueue s with
      | [] => Some (fired, s)
      | (k, x) :: q' =>
          if k <=? now
          then Update_loop fuel' now (fired ++ [(k, x)])
                 (snd (process k x (with_queue q' s)))
          else Some (fired, s)
      end
  end.

(** Modelled from the spec: [InstanceResetScheduler::Update], called with
    the current timestamp. *)
Definition Update (fuel : nat) (now : time_t) (s : t)
    : option (list entry * t) :=
  Update_loop fuel now [] s.

End Firing.

(** The registry callbacks performed by a run of [Update], in order. *)
Definition callbacks (fired : list entry) : list callback :=
  map (fun x => dispatch (snd x)) fired.

(** The queue of a multimap is ordered by key. *)
Definition ordered (q : list entry) : Prop :=
  StronglySorted (fun x y => fst x <= fst y) q.

(** The entries of a queue that are due at [now]. *)
Definition due_entries (now : time_t) (q : list entry) : list entry :=
  List.filter (fun x => fst x <=? now) q.

Fixpoint sum_costs (l : list nat) : nat :=
  match l with
  | [] => O
  | n :: l' => (n + sum_costs l')%nat
  end.

Section Cost.

Variable next_cycle : time_t -> InstanceResetEvent.t -> list entry.
Variable now : time_t.

(** The number of loop iterations an entry accounts for: one for the
    entry itself if it is due, and, for a final reset, those of the
    entries it schedules.  [depth] bounds the length of a chain of final
    resets each scheduled by the one before. *)
Fixpoint fire_cost (depth : nat) (x : entry) : nat :=
  match depth with
  | O => O
  | S depth' =>
      if fst x <=? now
      then S (if is_final_reset (snd x)
              then sum_costs (map (fire_cost depth')
                                  (next_cycle (fst x) (snd x)))
              else O)
      else O
  end.

(** A chain of final resets with strictly increasing keys, none after
    [now], that starts at [x] has at most [now - fst x + 1] members. *)
Definition entry_cost (x : entry) : nat :=
  fire_cost (S (S (Z.to_nat (now - fst x)))) x.

Definition queue_cost (q : list entry) : nat :=
  sum_costs (map entry_cost q).

End Cost.

End InstanceResetScheduler.

(** ** class InstanceSaveManager *)

Module InstanceSaveManager.

(** The registry's fields, and the bindings handed to the persistence
    collaborator so far ([SaveToDB] calls, oldest first). *)
Record t : Type := mk {
  lock_instLists : bool;
  m_instanceSaveById : gmap Z InstanceSave.t;
  m_Scheduler : InstanceResetScheduler.t;
  saved_to_db : list InstanceSave.t
}.

(** [uint32 GetNumInstanceSaves() { return m_instanceSaveById.size(); }] *)
Definition GetNumInstanceSaves (m : t) : Z :=
  to_uint32 (Z.of_nat (size (m_instanceSaveById m))).

Section Registry.

(** Whether (map, difficulty) is a dungeon-type instance, which resets
    per instance: static game content, outside the sources. *)
Variable IsDungeonType : Z -> Difficulty -> bool.

(** Modelled from the spec: [InstanceSaveManager::AddInstanceSave]
    (declared only).  The existing binding for [instanceId] is returned
    if there is one; otherwise a new binding is constructed and inserted
    and, only when not loading from storage, it is persisted and, for a
    dungeon-type instance, its individual reset event is scheduled. *)
Definition AddInstanceSave (mapId instanceId : Z) (difficulty : Difficulty)
    (resetTime : time_t) (canReset : bool) (load : bool) (m : t)
    : InstanceSave.t * t :=
  match m_instanceSaveById m !! instanceId with
  | Some old_save => (old_save, m)
  | None =>
      let save := InstanceSave.new mapId instanceId difficulty resetTime canReset in
      let byId := <[instanceId := save]> (m_instanceSaveById m) in
      if load then
        (save, mk (lock_instLists m) byId (m_Scheduler m) (saved_to_db m))
      else
        let sched :=
          if IsDungeonType mapId difficulty
          then snd (InstanceResetScheduler.ScheduleReset true resetTime
                      (InstanceResetEvent.make RESET_EVENT_DUNGEON mapId
                         difficulty instanceId) (m_Scheduler m))
          else m_Scheduler m in
        (save, mk (lock_instLists m) byId sched (saved_to_db m ++ [save]))
  end.

End Registry.

End InstanceSaveManager.

(** ** Concrete values used by the examples *)

(** A binding as [AddInstanceSave] creates it: map 249, instance 7. *)
Definition fresh_save : InstanceSave.t := InstanceSave.new 249 7 0 0 true.

(** The same binding with one participant bound. *)
Definition solo_save : InstanceSave.t := InstanceSave.AddPlayer 7 fresh_save.

(** A binding whose participant list holds 256 handles. *)
Definition crowded_save : InstanceSave.t :=
  InstanceSave.with_playerList (map Z.of_nat (List.seq 1 256)) fresh_save.

(** Modelled from the spec: a bit-packed (mapId, difficulty) composite
    key, standing for the macro [MAKE_PAIR32] of a header outside the
    sources: the low 16 bits hold the first argument, the next 16 the
    second. *)
Definition MAKE_PAIR32_packed (l h : Z) : Z :=
  to_uint32 (Z.lor (to_uint16 l) (Z.shiftl (to_uint32 h) 16)).

(** The final reset of cohort (531, difficulty 2) and one of its warnings;
    the reset of the dungeon instance 42 of map 249. *)
Definition raid_reset : InstanceResetEvent.t :=
  InstanceResetEvent.make RESET_EVENT_INFORM_LAST 531 2 0.
Definition raid_warning : InstanceResetEvent.t :=
  InstanceResetEvent.make RESET_EVENT_INFORM_1 531 2 0.
Definition dungeon_reset : InstanceResetEvent.t :=
  InstanceResetEvent.make RESET_EVENT_DUNGEON 249 0 42.

(** A scheduler with one known cohort reset time and three pending
    events. *)
Definition sample_scheduler : InstanceResetScheduler.t :=
  InstanceResetScheduler.mk
    {[ MAKE_PAIR32_packed 531 2 := 7200 ]}
    [(3600, raid_warning); (5000, dungeon_reset); (7200, raid_reset)].

(** A next-cycle policy: one day later, a warning an hour before the
    reset, and the reset. *)
Definition daily_cycle (time : time_t) (e : InstanceResetEvent.t)
    : list InstanceResetScheduler.entry :=
  [(time + 86400 - 3600,
    InstanceResetEvent.mk RESET_EVENT_INFORM_1 (InstanceResetEvent.difficulty e)
      (InstanceResetEvent.mapid e) (InstanceResetEvent.instanceId e));
   (time + 86400, e)].

(** A next-cycle policy with a short period: the reset comes half an
    hour after the one that fired, so the warning an hour before it lies
    before the reset that fired. *)
Definition short_cycle (time : time_t) (e : InstanceResetEvent.t)
    : list InstanceResetScheduler.entry :=
  [(time + 1800 - 3600,
    InstanceResetEvent.mk RESET_EVENT_INFORM_1 (InstanceResetEvent.difficulty e)
      (InstanceResetEvent.mapid e) (InstanceResetEvent.instanceId e));
   (time + 1800, e)].

(** A registry that holds the binding of instance 7. *)
Definition sample_registry : InstanceSaveManager.t :=
  InstanceSaveManager.mk false {[ 7 := solo_save ]} sample_scheduler [].

Definition dungeons_only (mapId : Z) (difficulty : Difficulty) : bool :=
  mapId =? 249.

(** The entries that the final resets among [fired] schedule for the next
    cycle. *)
Definition rescheduled
    (next_cycle : time_t -> InstanceResetEvent.t -> list InstanceResetScheduler.entry)
    (fired : list InstanceResetScheduler.entry) : list InstanceResetScheduler.entry :=
  flat_map (fun x => if InstanceResetScheduler.is_final_reset (snd x)
                     then next_cycle (fst x) (snd x) else []) fired.

(** * Properties *)

(** ** Reference lists *)

Section ReferenceLists.

Import InstanceSave.

Lemma list_remove_absent (x : Z) (l : list Z) :
  ~ In x l -> list_remove x l = l.
Proof.
  induction l as [|y l IH]; simpl; intros Hx; [reflexivity|].
  destruct (Z.eqb_spec y x) as [->|_].
  - exfalso. apply Hx. now left.
  - f_equal. apply IH. intros H. apply Hx. now right.
Qed.

Lemma occurrences_app (x : Z) (l1 l2 : list Z) :
  occurrences x (l1 ++ l2) = (occurrences x l1 + occurrences x l2)%nat.
Proof.
  induction l1 as [|y l1 IH]; simpl; [reflexivity|].
  destruct (y =? x); rewrite IH; reflexivity.
Qed.

Lemma occurrences_list_remove (x : Z) (l : list Z) :
  occurrences x (list_remove x l) = O.
Proof.
  induction l as [|y l IH]; simpl; [reflexivity|].
  destruct (y =? x) eqn:E; simpl; [assumption|].
  rewrite E. assumption.
Qed.

Lemma occurrences_list_remove_other (x h : Z) (l : list Z) :
  h <> x -> occurrences h (list_remove x l) = occurrences h l.
Proof.
  intros Hne. induction l as [|y l IH]; simpl; [reflexivity|].
  destruct (Z.eqb_spec y x) as [->|Hyx]; simpl.
  - destruct (Z.eqb_spec x h) as [->|_]; [contradiction|assumption].
  - destruct (y =? h); rewrite IH; reflexivity.
Qed.

Lemma with_playerList_same (b : t) : with_playerList (m_playerList b) b = b.
Proof. destruct b; reflexivity. Qed.

Lemma with_groupList_same (b : t) : with_groupList (m_groupList b) b = b.
Proof. destruct b; reflexivity. Qed.

Lemma UnloadIfEmpty_spec (b : t) : UnloadIfEmpty b = true <-> unreferenced b.
Proof.
  unfold UnloadIfEmpty, unreferenced.
  destruct (m_playerList b), (m_groupList b), (m_usedByMap b); simpl;
    split; intros H; try discriminate; try (repeat split; reflexivity);
    destruct H as (H1 & H2 & H3); discriminate.
Qed.

(** After any single call, the call destroyed the binding exactly when the
    binding it leaves behind is unreferenced. *)
Lemma exec_destroyed_iff (c : call) (b : t) :
  snd (exec c b) = true <-> unreferenced (fst (exec c b)).
Proof.
  destruct c as [p|p|g|g|[|]]; simpl.
  - split; [discriminate|]. intros (H & _). simpl in H.
    destruct (m_playerList b); discriminate.
  - apply UnloadIfEmpty_spec.
  - split; [discriminate|]. intros (_ & H & _). simpl in H.
    destruct (m_groupList b); discriminate.
  - apply UnloadIfEmpty_spec.
  - split; [discriminate|]. intros (_ & _ & H). discriminate.
  - apply UnloadIfEmpty_spec.
Qed.

(** C10. [GetPlayerCount] and [GetGroupCount] return the length of their
    list reduced modulo 256, so a list of more than 255 entries is
    reported with a count different from its length. *)
Theorem counts_are_truncated_to_uint8 (b : t) :
  GetPlayerCount b = Z.of_nat (length (m_playerList b)) mod 256
  /\ GetGroupCount b = Z.of_nat (length (m_groupList b)) mod 256
  /\ (255 < Z.of_nat (length (m_playerList b)) ->
      GetPlayerCount b <> Z.of_nat (length (m_playerList b)))
  /\ (255 < Z.of_nat (length (m_groupList b)) ->
      GetGroupCount b <> Z.of_nat (length (m_groupList b))).
Proof.
  unfold GetPlayerCount, GetGroupCount, to_uint8.
  repeat split; intros Hbig Heq.
  - pose proof (Z.mod_pos_bound (Z.of_nat (length (m_playerList b))) 256).
    lia.
  - pose proof (Z.mod_pos_bound (Z.of_nat (length (m_groupList b))) 256).
    lia.
Qed.

Lemma counts_are_truncated_to_uint8_witness :
  255 < Z.of_nat (length (m_playerList crowded_save))
  /\ GetPlayerCount crowded_save = 0
  /\ GetPlayerCount crowded_save <> Z.of_nat (length (m_playerList crowded_save)).
Proof.
  split; [vm_compute; reflexivity|].
  split; [vm_compute; reflexivity|].
  apply (proj1 (proj2 (proj2 (counts_are_truncated_to_uint8 crowded_save)))).
  vm_compute; reflexivity.
Defined.

(** C6, as the code has it.  The reference lists are lists: [AddPlayer]
    and [AddGroup] append the handle whether or not it is present, so the
    number of occurrences of the added handle grows by one and that of
    every other handle is unchanged; [RemovePlayer] and [RemoveGroup]
    erase every occurrence of their handle and no other. *)
Theorem reference_lists_count_occurrences (b : t) (p h : Z) :
  occurrences h (m_playerList (AddPlayer p b))
    = (occurrences h (m_playerList b) + (if (p =? h)%Z then 1 else 0))%nat
  /\ occurrences h (m_groupList (AddGroup p b))
    = (occurrences h (m_groupList b) + (if (p =? h)%Z then 1 else 0))%nat
  /\ occurrences h (m_playerList (fst (RemovePlayer p b)))
    = (if p =? h then O else occurrences h (m_playerList b))
  /\ occurrences h (m_groupList (fst (RemoveGroup p b)))
    = (if p =? h then O else occurrences h (m_groupList b)).
Proof.
  simpl. rewrite !occurrences_app. simpl.
  repeat split; try reflexivity;
    destruct (Z.eqb_spec p h) as [->|Hne];
    auto using occurrences_list_remove;
    apply occurrences_list_remove_other; congruence.
Qed.

(** C6, as stated, fails: adding a participant that is already bound
    leaves two occurrences of its handle. *)
Lemma add_present_participant_duplicates :
  In 7 (m_playerList solo_save)
  /\ m_playerList (AddPlayer 7 solo_save) = [7; 7]
  /\ occurrences 7 (m_playerList (AddPlayer 7 solo_save)) = 2%nat.
Proof. vm_compute. repeat split. now left. Qed.

(** C7, as the code has it.  Removing a handle that is not in the list
    leaves every field of the binding as it was; the emptiness check still
    runs, so the call reports destruction exactly when the binding was
    already unreferenced. *)
Theorem remove_absent_reference (b : t) (h : Z) :
  (~ In h (m_playerList b) -> RemovePlayer h b = (b, UnloadIfEmpty b))
  /\ (~ In h (m_groupList b) -> RemoveGroup h b = (b, UnloadIfEmpty b))
  /\ (UnloadIfEmpty b = true <-> unreferenced b).
Proof.
  unfold RemovePlayer, RemoveGroup.
  split; [|split].
  - intros H. rewrite (list_remove_absent _ _ H), with_playerList_same.
    reflexivity.
  - intros H. rewrite (list_remove_absent _ _ H), with_groupList_same.
    reflexivity.
  - apply UnloadIfEmpty_spec.
Qed.

Lemma remove_absent_reference_witness :
  ~ In 8 (m_playerList solo_save)
  /\ RemovePlayer 8 solo_save = (solo_save, false).
Proof.
  assert (H : ~ In 8 (m_playerList solo_save)).
  { vm_compute. intros [H|[]]. discriminate H. }
  split; [exact H|].
  exact (proj1 (remove_absent_reference solo_save 8) H).
Defined.

(** C7, as stated, fails: on a binding that has no reference and no loaded
    map, removing a participant that is not bound destroys the binding. *)
Lemma remove_absent_destroys_unreferenced :
  ~ In 8 (m_playerList fresh_save)
  /\ RemovePlayer 8 fresh_save = (fresh_save, true).
Proof. split; [intros []|reflexivity]. Qed.

(** C1, as the code has it.  For a sequence of at least one call, the
    binding is destroyed exactly when, at the end of the run, both lists
    are empty and [m_usedByMap] is false; the emptiness check is what
    [RemovePlayer], [RemoveGroup] and [SetUsedByMapState(false)] return
    from, and no other call runs it. *)
Theorem destroyed_iff_unreferenced (b : t) (calls : list call) :
  calls <> [] ->
  (snd (run calls b) = true <-> unreferenced (fst (run calls b)))
  /\ (forall p, snd (RemovePlayer p b) = UnloadIfEmpty (fst (RemovePlayer p b)))
  /\ (forall g, snd (RemoveGroup g b) = UnloadIfEmpty (fst (RemoveGroup g b)))
  /\ snd (SetUsedByMapState false b)
     = UnloadIfEmpty (fst (SetUsedByMapState false b))
  /\ snd (SetUsedByMapState true b) = false.
Proof.
  intros Hne. split; [|repeat split].
  revert b. induction calls as [|c calls IH]; intros b; [contradiction|].
  simpl. pose proof (exec_destroyed_iff c b) as Hc.
  destruct (exec c b) as [b' d]. simpl in Hc.
  destruct d; simpl.
  - split; [intros _; apply Hc; reflexivity|reflexivity].
  - destruct calls as [|c' calls'].
    + simpl. split; [discriminate|]. intros H. apply Hc in H. discriminate.
    + apply IH. discriminate.
Qed.

Lemma destroyed_iff_unreferenced_witness :
  snd (run [CallAddPlayer 7; CallSetUsedByMapState true; CallRemovePlayer 7;
            CallSetUsedByMapState false] fresh_save) = true
  <-> unreferenced (fst (run [CallAddPlayer 7; CallSetUsedByMapState true;
                              CallRemovePlayer 7; CallSetUsedByMapState false]
                             fresh_save)).
Proof.
  apply (destroyed_iff_unreferenced fresh_save
           [CallAddPlayer 7; CallSetUsedByMapState true; CallRemovePlayer 7;
            CallSetUsedByMapState false]).
  discriminate.
Defined.

(** C1, as stated, fails on the empty sequence: a binding as created is
    unreferenced, and it is not destroyed, since no check has run. *)
Lemma created_unreferenced_not_destroyed :
  unreferenced (fst (run [] fresh_save))
  /\ snd (run [] fresh_save) = false.
Proof. split; [repeat split|reflexivity]. Qed.

End ReferenceLists.

(** ** Reset events and the reset-time table *)

Section ResetTimes.

Import InstanceResetScheduler.

(** C4. Two events compare equal exactly when their map, difficulty and
    instance id agree; the type takes no part, so events that differ only
    in type compare equal. *)
Theorem event_equality_is_by_identity (a b : InstanceResetEvent.t) :
  (InstanceResetEvent.eqb a b = true <->
     InstanceResetEvent.mapid a = InstanceResetEvent.mapid b
     /\ InstanceResetEvent.difficulty a = InstanceResetEvent.difficulty b
     /\ InstanceResetEvent.instanceId a = InstanceResetEvent.instanceId b)
  /\ InstanceResetEvent.eqb a
       (InstanceResetEvent.mk (InstanceResetEvent.type b)
          (InstanceResetEvent.difficulty a) (InstanceResetEvent.mapid a)
          (InstanceResetEvent.instanceId a)) = true.
Proof.
  unfold InstanceResetEvent.eqb. split.
  - rewrite !andb_true_iff, !Z.eqb_eq. intuition congruence.
  - simpl. rewrite !Z.eqb_refl. reflexivity.
Qed.

Lemma event_eqb_refl (e : InstanceResetEvent.t) : InstanceResetEvent.eqb e e = true.
Proof. unfold InstanceResetEvent.eqb. rewrite !Z.eqb_refl. reflexivity. Qed.

Variable MAKE_PAIR32 : Z -> Z -> Z.

(** C8. A pair without an entry in the table reads as 0; reading leaves
    the scheduler as it was; a write followed by a read of the same pair
    returns the written time. *)
Theorem GetResetTimeFor_reads (s : t) (mapid : Z) (d : Difficulty) (t0 : time_t) :
  (m_resetTimeByMapDifficulty s !! MAKE_PAIR32 mapid d = None ->
     fst (GetResetTimeFor MAKE_PAIR32 mapid d s) = 0)
  /\ snd (GetResetTimeFor MAKE_PAIR32 mapid d s) = s
  /\ fst (seq (SetResetTimeFor MAKE_PAIR32 mapid d t0)
              (GetResetTimeFor MAKE_PAIR32 mapid d) s) = t0.
Proof.
  split; [|split].
  - intros H. unfold GetResetTimeFor. simpl. rewrite H. reflexivity.
  - reflexivity.
  - unfold seq, bind, SetResetTimeFor, GetResetTimeFor. simpl.
    rewrite lookup_insert_eq. reflexivity.
Qed.

(** C9. A write changes the table at the packed key of its pair only and
    leaves the event queue alone: every other key keeps its entry, and so
    every pair packed to another key reads as before. *)
Theorem SetResetTimeFor_writes_one_entry (s : t) (mapid : Z) (d : Difficulty)
    (t0 : time_t) :
  m_resetTimeQueue (snd (SetResetTimeFor MAKE_PAIR32 mapid d t0 s))
    = m_resetTimeQueue s
  /\ m_resetTimeByMapDifficulty (snd (SetResetTimeFor MAKE_PAIR32 mapid d t0 s))
       !! MAKE_PAIR32 mapid d = Some t0
  /\ (forall k : Z, k <> MAKE_PAIR32 mapid d ->
        m_resetTimeByMapDifficulty (snd (SetResetTimeFor MAKE_PAIR32 mapid d t0 s)) !! k
        = m_resetTimeByMapDifficulty s !! k)
  /\ (forall (mapid' : Z) (d' : Difficulty),
        MAKE_PAIR32 mapid' d' <> MAKE_PAIR32 mapid d ->
        fst (GetResetTimeFor MAKE_PAIR32 mapid' d'
               (snd (SetResetTimeFor MAKE_PAIR32 mapid d t0 s)))
        = fst (GetResetTimeFor MAKE_PAIR32 mapid' d' s)).
Proof.
  unfold SetResetTimeFor, GetResetTimeFor. simpl.
  split; [reflexivity|split; [|split]].
  - apply lookup_insert_eq.
  - intros k Hk. apply lookup_insert_ne. congruence.
  - intros mapid' d' Hk. rewrite lookup_insert_ne by congruence. reflexivity.
Qed.

End ResetTimes.

Lemma GetResetTimeFor_reads_witness :
  InstanceResetScheduler.m_resetTimeByMapDifficulty sample_scheduler
    !! MAKE_PAIR32_packed 249 0 = None
  /\ fst (InstanceResetScheduler.GetResetTimeFor MAKE_PAIR32_packed 249 0
            sample_scheduler) = 0.
Proof.
  assert (H : InstanceResetScheduler.m_resetTimeByMapDifficulty sample_scheduler
                !! MAKE_PAIR32_packed 249 0 = None) by (vm_compute; reflexivity).
  split; [exact H|].
  exact (proj1 (GetResetTimeFor_reads MAKE_PAIR32_packed sample_scheduler 249 0 0) H).
Defined.

Lemma SetResetTimeFor_writes_one_entry_witness :
  MAKE_PAIR32_packed 531 2 <> MAKE_PAIR32_packed 249 0
  /\ InstanceResetScheduler.m_resetTimeByMapDifficulty
       (snd (InstanceResetScheduler.SetResetTimeFor MAKE_PAIR32_packed 249 0 99
               sample_scheduler)) !! MAKE_PAIR32_packed 531 2
     = InstanceResetScheduler.m_resetTimeByMapDifficulty sample_scheduler
         !! MAKE_PAIR32_packed 531 2.
Proof.
  assert (H : MAKE_PAIR32_packed 531 2 <> MAKE_PAIR32_packed 249 0)
    by (vm_compute; discriminate).
  split; [exact H|].
  exact (proj1 (proj2 (proj2 (SetResetTimeFor_writes_one_entry MAKE_PAIR32_packed
                                sample_scheduler 249 0 99))) _ H).
Defined.

(** ** The event queue *)

Section Queue.

Import InstanceResetScheduler.

Lemma queue_insert_In (time : time_t) (e : InstanceResetEvent.t)
    (q : list entry) (y : entry) :
  In y (queue_insert time e q) <-> y = (time, e) \/ In y q.
Proof.
  induction q as [|[k x] q IH]; simpl.
  - intuition.
  - destruct (k <=? time); simpl; [rewrite IH|]; intuition.
Qed.

Lemma queue_insert_perm (time : time_t) (e : InstanceResetEvent.t)
    (q : list entry) :
  Permutation (queue_insert time e q) ((time, e) :: q).
Proof.
  induction q as [|[k x] q IH]; simpl; [reflexivity|].
  destruct (k <=? time); [|reflexivity].
  rewrite IH. apply perm_swap.
Qed.

Lemma queue_insert_ordered (time : time_t) (e : InstanceResetEvent.t)
    (q : list entry) :
  ordered q -> ordered (queue_insert time e q).
Proof.
  unfold ordered. induction q as [|[k x] q IH]; simpl; intros Hq.
  - repeat constructor.
  - inversion Hq as [|? ? Hq' Hall]; subst.
    destruct (Z.leb_spec k time).
    + constructor; [auto|].
      rewrite List.Forall_forall. intros y Hy. apply queue_insert_In in Hy.
      destruct Hy as [->|Hy]; simpl; [lia|].
      rewrite List.Forall_forall in Hall. apply (Hall y Hy).
    + constructor; [assumption|].
      constructor; [simpl; lia|].
      rewrite List.Forall_forall in Hall |- *. intros y Hy.
      specialize (Hall y Hy). simpl in *. lia.
Qed.

Lemma queue_insert_length (time : time_t) (e : InstanceResetEvent.t)
    (q : list entry) :
  length (queue_insert time e q) = S (length q).
Proof.
  induction q as [|[k x] q IH]; simpl; [reflexivity|].
  destruct (k <=? time); simpl; [rewrite IH|]; reflexivity.
Qed.

(** Removal takes out the first matching entry and nothing else. *)
Lemma queue_remove_first_split (e : InstanceResetEvent.t) (q : list entry) :
  (exists y, In y q /\ InstanceResetEvent.eqb (snd y) e = true) ->
  exists l1 k x l2,
    q = l1 ++ (k, x) :: l2
    /\ queue_remove_first e q = l1 ++ l2
    /\ InstanceResetEvent.eqb x e = true
    /\ Forall (fun y => InstanceResetEvent.eqb (snd y) e = false) l1.
Proof.
  induction q as [|[k x] q IH]; intros (y & Hy & Hmatch); [destruct Hy|].
  simpl. destruct (InstanceResetEvent.eqb x e) eqn:E.
  - exists [], k, x, q. repeat split; auto.
  - destruct Hy as [<-|Hy]; [simpl in Hmatch; congruence|].
    destruct IH as (l1 & k' & x' & l2 & -> & Hrm & Hx & Hl1); [eauto|].
    exists ((k, x) :: l1), k', x', l2. simpl. rewrite Hrm.
    repeat split; auto.
Qed.

Lemma queue_remove_first_none (e : InstanceResetEvent.t) (q : list entry) :
  Forall (fun y => InstanceResetEvent.eqb (snd y) e = false) q ->
  queue_remove_first e q = q.
Proof.
  induction 1 as [|[k x] q Hx _ IH]; simpl; [reflexivity|].
  simpl in Hx. rewrite Hx, IH. reflexivity.
Qed.

(** Without an earlier match, removal undoes the insertion. *)
Lemma queue_remove_first_insert (time : time_t) (e : InstanceResetEvent.t)
    (q : list entry) :
  Forall (fun y => InstanceResetEvent.eqb (snd y) e = false) q ->
  queue_remove_first e (queue_insert time e q) = q.
Proof.
  induction 1 as [|[k x] q Hx _ IH]; simpl.
  - rewrite event_eqb_refl. reflexivity.
  - simpl in Hx. destruct (k <=? time); simpl.
    + rewrite Hx, IH. reflexivity.
    + rewrite event_eqb_refl. reflexivity.
Qed.

(** C3. Scheduling [e] and then retracting it takes exactly one entry out
    of the queue as it stands after the insertion: the first one whose
    event compares equal to [e], whatever timestamp the retracting call is
    given.  Every other entry stays in place, so the queue is as long as
    before the insertion; the table is untouched, and when no earlier
    entry matches [e] the scheduler is the one before the insertion. *)
Theorem schedule_then_retract (s : t) (time time' : time_t)
    (e : InstanceResetEvent.t) :
  exists l1 k x l2,
    m_resetTimeQueue (snd (ScheduleReset true time e s)) = l1 ++ (k, x) :: l2
    /\ m_resetTimeQueue
         (snd (seq (ScheduleReset true time e) (ScheduleReset false time' e) s))
       = l1 ++ l2
    /\ InstanceResetEvent.eqb x e = true
    /\ Forall (fun y => InstanceResetEvent.eqb (snd y) e = false) l1
    /\ length (m_resetTimeQueue
                 (snd (seq (ScheduleReset true time e)
                           (ScheduleReset false time' e) s)))
       = length (m_resetTimeQueue s)
    /\ (forall time'' : time_t,
          seq (ScheduleReset true time e) (ScheduleReset false time'' e) s
          = seq (ScheduleReset true time e) (ScheduleReset false time' e) s)
    /\ m_resetTimeByMapDifficulty
         (snd (seq (ScheduleReset true time e) (ScheduleReset false time' e) s))
       = m_resetTimeByMapDifficulty s
    /\ (Forall (fun y => InstanceResetEvent.eqb (snd y) e = false)
               (m_resetTimeQueue s) ->
        snd (seq (ScheduleReset true time e) (ScheduleReset false time' e) s) = s).
Proof.
  destruct (queue_remove_first_split e (queue_insert time e (m_resetTimeQueue s)))
    as (l1 & k & x & l2 & Hq & Hrm & Hx & Hl1).
  { exists (time, e). split; [apply queue_insert_In; now left|].
    apply event_eqb_refl. }
  exists l1, k, x, l2. unfold seq, bind, ScheduleReset, with_queue. simpl.
  repeat split; auto.
  - pose proof (queue_insert_length time e (m_resetTimeQueue s)) as Hlen.
    rewrite Hq in Hlen. rewrite Hrm. rewrite !length_app in *. simpl in Hlen.
    lia.
  - intros Hnone. rewrite (queue_remove_first_insert _ _ _ Hnone).
  destruct s; reflexivity.
Qed.

Lemma schedule_then_retract_witness :
  snd (seq (ScheduleReset true 5000 dungeon_reset)
           (ScheduleReset false 0 dungeon_reset)
           (mk ∅ [(3600, raid_warning); (7200, raid_reset)]))
  = mk ∅ [(3600, raid_warning); (7200, raid_reset)].
Proof.
  destruct (schedule_then_retract
              (mk ∅ [(3600, raid_warning); (7200, raid_reset)])
              5000 0 dungeon_reset)
    as (l1 & k & x & l2 & _ & _ & _ & _ & _ & _ & _ & H).
  apply H. repeat constructor.
Defined.

End Queue.

(** ** The registry *)

Section RegistryProperties.

Import InstanceSaveManager.

Variable IsDungeonType : Z -> Difficulty -> bool.

Lemma AddInstanceSave_lookup (mapId instanceId : Z) (difficulty : Difficulty)
    (resetTime : time_t) (canReset load : bool) (m : t) :
  m_instanceSaveById
    (snd (AddInstanceSave IsDungeonType mapId instanceId difficulty resetTime
            canReset load m)) !! instanceId
  = Some (fst (AddInstanceSave IsDungeonType mapId instanceId difficulty
                 resetTime canReset load m)).
Proof.
  unfold AddInstanceSave.
  destruct (m_instanceSaveById m !! instanceId) eqn:E; simpl; [assumption|].
  destruct load; simpl; apply lookup_insert_eq.
Qed.

(** C5. [AddInstanceSave] is idempotent in the instance id.  With a
    binding already registered for the id, the call returns that binding
    and leaves the registry, the saved bindings and the scheduler as they
    were.  With a fresh id it registers a new binding; loading from
    storage neither saves nor schedules, and otherwise the binding is
    saved once and, for a dungeon-type instance, its reset is scheduled.
    Hence a second call with the same id, whatever its other arguments,
    returns the binding of the first call and changes nothing. *)
Theorem AddInstanceSave_idempotent (mapId instanceId : Z)
    (difficulty : Difficulty) (resetTime : time_t) (canReset load : bool)
    (m m' : t) (save : InstanceSave.t) :
  AddInstanceSave IsDungeonType mapId instanceId difficulty resetTime
    canReset load m = (save, m') ->
  (forall old_save, m_instanceSaveById m !! instanceId = Some old_save ->
     save = old_save /\ m' = m)
  /\ (m_instanceSaveById m !! instanceId = None ->
      save = InstanceSave.new mapId instanceId difficulty resetTime canReset
      /\ m_instanceSaveById m' = <[instanceId := save]> (m_instanceSaveById m)
      /\ (load = true ->
          saved_to_db m' = saved_to_db m /\ m_Scheduler m' = m_Scheduler m)
      /\ (load = false ->
          saved_to_db m' = saved_to_db m ++ [save]
          /\ m_Scheduler m'
             = if IsDungeonType mapId difficulty
               then snd (InstanceResetScheduler.ScheduleReset true resetTime
                           (InstanceResetEvent.make RESET_EVENT_DUNGEON mapId
                              difficulty instanceId) (m_Scheduler m))
               else m_Scheduler m))
  /\ (forall mapId' difficulty' resetTime' canReset' load',
        AddInstanceSave IsDungeonType mapId' instanceId difficulty' resetTime'
          canReset' load' m' = (save, m')).
Proof.
  intros Hcall. split; [|split].
  - intros old_save Hold. unfold AddInstanceSave in Hcall.
    rewrite Hold in Hcall. inversion Hcall; subst. split; reflexivity.
  - intros Hnone. unfold AddInstanceSave in Hcall. rewrite Hnone in Hcall.
    destruct load; inversion Hcall; subst; simpl;
      repeat split; try reflexivity; discriminate.
  - intros mapId' difficulty' resetTime' canReset' load'.
    pose proof (AddInstanceSave_lookup mapId instanceId difficulty resetTime
                  canReset load m) as Hl.
    rewrite Hcall in Hl. simpl in Hl.
    unfold AddInstanceSave. rewrite Hl. reflexivity.
Qed.

End RegistryProperties.

Lemma AddInstanceSave_idempotent_witness :
  InstanceSaveManager.AddInstanceSave dungeons_only 249 8 0 0 true false
    (snd (InstanceSaveManager.AddInstanceSave dungeons_only 249 8 0 0 true true
            sample_registry))
  = InstanceSaveManager.AddInstanceSave dungeons_only 249 8 0 0 true true
      sample_registry.
Proof.
  refine (proj2 (proj2
    (AddInstanceSave_idempotent dungeons_only 249 8 0 0 true true
       sample_registry
       (snd (InstanceSaveManager.AddInstanceSave dungeons_only 249 8 0 0 true
               true sample_registry))
       (fst (InstanceSaveManager.AddInstanceSave dungeons_only 249 8 0 0 true
               true sample_registry)) _)) 249 0 0 true false).
  vm_compute; reflexivity.
Defined.

(** ** Firing due events *)

Section UpdateProperties.

Import InstanceResetScheduler.

Variable next_cycle : time_t -> InstanceResetEvent.t -> list entry.

(** What is known of the next cycle: its final reset is strictly later
    than the final reset that fired.  Nothing is assumed of its warnings,
    which may even lie before the reset that fired, nor of their
    number. *)
Hypothesis next_final_reset_later :
  forall time e x,
    In x (next_cycle time e) -> is_final_reset (snd x) = true -> time < fst x.

Lemma schedule_all_table (l : list entry) (s : t) :
  m_resetTimeByMapDifficulty (snd (schedule_all l s))
  = m_resetTimeByMapDifficulty s.
Proof.
  revert s. induction l as [|[k x] l IH]; intros s; [reflexivity|].
  simpl. unfold seq, bind. simpl. rewrite IH. reflexivity.
Qed.

Lemma schedule_all_perm (l : list entry) (s : t) :
  Permutation (m_resetTimeQueue (snd (schedule_all l s)))
              (m_resetTimeQueue s ++ l).
Proof.
  revert s. induction l as [|[k x] l IH]; intros s; simpl.
  - rewrite app_nil_r. reflexivity.
  - unfold seq, bind. simpl. rewrite IH. simpl.
    rewrite queue_insert_perm. simpl. apply Permutation_middle.
Qed.

Lemma schedule_all_ordered (l : list entry) (s : t) :
  ordered (m_resetTimeQueue s) ->
  ordered (m_resetTimeQueue (snd (schedule_all l s))).
Proof.
  revert s. induction l as [|[k x] l IH]; intros s Hs; [assumption|].
  simpl. unfold seq, bind. simpl. apply IH. simpl.
  apply queue_insert_ordered, Hs.
Qed.

(** Insertion leaves the entries already queued in their order. *)
Lemma queue_insert_sublist (time : time_t) (e : InstanceResetEvent.t)
    (q : list entry) :
  sublist q (queue_insert time e q).
Proof.
  induction q as [|[k x] q IH]; simpl.
  - apply sublist_nil_l.
  - destruct (k <=? time).
    + apply sublist_skip, IH.
    + apply sublist_cons. reflexivity.
Qed.

Lemma schedule_all_sublist (l : list entry) (s : t) :
  sublist (m_resetTimeQueue s) (m_resetTimeQueue (snd (schedule_all l s))).
Proof.
  revert s. induction l as [|[k x] l IH]; intros s; [reflexivity|].
  simpl. unfold seq, bind. simpl.
  etransitivity; [|apply IH]. simpl. apply queue_insert_sublist.
Qed.

Lemma due_entries_sublist (now : time_t) (q q' : list entry) :
  sublist q q' -> sublist (due_entries now q) (due_entries now q').
Proof.
  unfold due_entries. induction 1 as [|x q q' _ IH|x q q' _ IH]; simpl.
  - constructor.
  - destruct (fst x <=? now); [apply sublist_skip|]; exact IH.
  - destruct (fst x <=? now); [apply sublist_cons|]; exact IH.
Qed.

Lemma due_entries_none (now : time_t) (q : list entry) :
  Forall (fun y : entry => now < fst y) q -> due_entries now q = [].
Proof.
  unfold due_entries. induction 1 as [|x q Hx _ IH]; simpl; [reflexivity|].
  destruct (Z.leb_spec (fst x) now); [lia|exact IH].
Qed.

Lemma due_entries_ordered (now : time_t) (q : list entry) :
  ordered q -> ordered (due_entries now q).
Proof.
  unfold ordered, due_entries.
  induction 1 as [|x q _ IH Hall]; simpl; [constructor|].
  destruct (fst x <=? now); [|exact IH].
  constructor; [exact IH|].
  rewrite List.Forall_forall in Hall |- *. intros y Hy.
  apply List.filter_In in Hy. apply Hall, Hy.
Qed.

Lemma sum_costs_app (l l' : list nat) :
  sum_costs (l ++ l') = (sum_costs l + sum_costs l')%nat.
Proof. induction l as [|n l IH]; simpl; [reflexivity|]. rewrite IH. lia. Qed.

Lemma queue_cost_app (now : time_t) (q q' : list entry) :
  queue_cost next_cycle now (q ++ q')
  = (queue_cost next_cycle now q + queue_cost next_cycle now q')%nat.
Proof. unfold queue_cost. rewrite List.map_app. apply sum_costs_app. Qed.

Lemma queue_cost_perm (now : time_t) (q q' : list entry) :
  Permutation q q' -> queue_cost next_cycle now q = queue_cost next_cycle now q'.
Proof.
  unfold queue_cost. induction 1; simpl; lia.
Qed.

Lemma fire_cost_step (now : time_t) (depth : nat) (x : entry) :
  fire_cost next_cycle now (S depth) x
  = if fst x <=? now
    then S (if is_final_reset (snd x)
            then sum_costs (map (fire_cost next_cycle now depth)
                                (next_cycle (fst x) (snd x)))
            else O)
    else O.
Proof. reflexivity. Qed.

(** Beyond the depth an entry needs, more depth does not change what it
    accounts for. *)
Lemma fire_cost_stable (now : time_t) (n : nat) :
  forall (m : nat) (x : entry),
    (1 <= n)%nat -> (1 <= m)%nat ->
    (is_final_reset (snd x) = true -> fst x <= now ->
     (S (S (Z.to_nat (now - fst x))) <= n)%nat
     /\ (S (S (Z.to_nat (now - fst x))) <= m)%nat) ->
    fire_cost next_cycle now n x = fire_cost next_cycle now m x.
Proof.
  induction n as [|n IH]; intros m x Hn Hm Hdeep; [lia|].
  destruct m as [|m]; [lia|].
  rewrite !fire_cost_step.
  destruct (Z.leb_spec (fst x) now) as [Hdue|_]; [|reflexivity].
  destruct (is_final_reset (snd x)) eqn:Hfin; [|reflexivity].
  destruct (Hdeep eq_refl Hdue) as [Hn' Hm'].
  f_equal. f_equal. apply List.map_ext_in. intros y Hy.
  apply IH; [lia|lia|].
  intros Hyfin Hydue.
  pose proof (next_final_reset_later _ _ y Hy Hyfin) as Hlater.
  split; lia.
Qed.

(** A due entry accounts for its own iteration and, if it is a final
    reset, for the entries it schedules. *)
Lemma entry_cost_due (now : time_t) (x : entry) :
  fst x <= now ->
  entry_cost next_cycle now x
  = S (if is_final_reset (snd x)
       then queue_cost next_cycle now (next_cycle (fst x) (snd x))
       else O).
Proof.
  intros Hdue. unfold entry_cost at 1. rewrite fire_cost_step.
  destruct (Z.leb_spec (fst x) now) as [_|]; [|lia].
  destruct (is_final_reset (snd x)) eqn:Hfin; [|reflexivity].
  f_equal. unfold queue_cost. f_equal. apply List.map_ext_in. intros y Hy.
  unfold entry_cost. apply fire_cost_stable; [lia|lia|].
  intros Hyfin Hydue.
  pose proof (next_final_reset_later _ _ y Hy Hyfin) as Hlater.
  split; lia.
Qed.

(** Popping a due entry and processing it lowers the cost of the queue by
    one. *)
Lemma process_lowers_cost (now : time_t) (k : time_t)
    (x : InstanceResetEvent.t) (q : list entry) (s : t) :
  k <= now ->
  S (queue_cost next_cycle now
       (m_resetTimeQueue (snd (process next_cycle k x (with_queue q s)))))
  = queue_cost next_cycle now ((k, x) :: q).
Proof.
  intros Hk.
  change (queue_cost next_cycle now ((k, x) :: q))
    with (entry_cost next_cycle now (k, x) + queue_cost next_cycle now q)%nat.
  rewrite (entry_cost_due now (k, x) Hk). simpl fst. simpl snd.
  unfold process. destruct (is_final_reset x); simpl.
  - rewrite (queue_cost_perm now _ _ (schedule_all_perm _ _)). simpl.
    rewrite queue_cost_app, Nat.add_comm. reflexivity.
  - reflexivity.
Qed.

(** The loop ends: fuel above the cost of the queue is enough. *)
Lemma Update_loop_terminates (now : time_t) (fuel : nat) :
  forall (fired : list entry) (s : t),
    (queue_cost next_cycle now (m_resetTimeQueue s) < fuel)%nat ->
    exists r, Update_loop next_cycle fuel now fired s = Some r.
Proof.
  induction fuel as [|fuel IH]; intros fired s Hw; [lia|].
  simpl. destruct (m_resetTimeQueue s) as [|[k x] q] eqn:Hq; [eauto|].
  destruct (Z.leb_spec k now) as [Hk|Hk]; [|eauto].
  apply IH.
  pose proof (process_lowers_cost now k x q s Hk) as Hlow.
  exact (Nat.le_trans _ _ _ (Nat.eq_le_incl _ _ Hlow) (le_S_n _ _ Hw)).
Qed.

(** More fuel does not change a result. *)
Lemma Update_loop_fuel_mono (now : time_t) (fuel : nat) :
  forall (fuel' : nat) (fired : list entry) (s : t) r,
    Update_loop next_cycle fuel now fired s = Some r ->
    (fuel <= fuel')%nat ->
    Update_loop next_cycle fuel' now fired s = Some r.
Proof.
  induction fuel as [|fuel IH]; intros fuel' fired s r Hr Hle; [discriminate|].
  destruct fuel' as [|fuel']; [lia|].
  simpl in *. destruct (m_resetTimeQueue s) as [|[k x] q]; [assumption|].
  destruct (k <=? now); [|assumption].
  apply IH; [assumption|lia].
Qed.

Lemma process_table (k : time_t) (x : InstanceResetEvent.t) (s : t) :
  m_resetTimeByMapDifficulty (snd (process next_cycle k x s))
  = m_resetTimeByMapDifficulty s.
Proof.
  unfold process. destruct (is_final_reset x); [|reflexivity].
  apply schedule_all_table.
Qed.

Lemma process_ordered (k : time_t) (x : InstanceResetEvent.t) (s : t) :
  ordered (m_resetTimeQueue s) ->
  ordered (m_resetTimeQueue (snd (process next_cycle k x s))).
Proof.
  unfold process. destruct (is_final_reset x); [|auto].
  apply schedule_all_ordered.
Qed.

Lemma process_sublist (k : time_t) (x : InstanceResetEvent.t) (s : t) :
  sublist (m_resetTimeQueue s)
          (m_resetTimeQueue (snd (process next_cycle k x s))).
Proof.
  unfold process. destruct (is_final_reset x); [|reflexivity].
  apply schedule_all_sublist.
Qed.

Lemma process_perm (k : time_t) (x : InstanceResetEvent.t) (s : t) :
  Permutation (m_resetTimeQueue (snd (process next_cycle k x s)))
              (m_resetTimeQueue s ++ rescheduled next_cycle [(k, x)]).
Proof.
  unfold process, rescheduled. simpl. rewrite app_nil_r.
  destruct (is_final_reset x); simpl.
  - apply schedule_all_perm.
  - rewrite app_nil_r. reflexivity.
Qed.

Lemma rescheduled_cons (x : entry) (l : list entry) :
  rescheduled next_cycle (x :: l)
  = rescheduled next_cycle [x] ++ rescheduled next_cycle l.
Proof. unfold rescheduled. simpl. rewrite app_nil_r. reflexivity. Qed.

Lemma rescheduled_not_before (k : time_t) (x : InstanceResetEvent.t) :
  (forall time e y, In y (next_cycle time e) -> time <= fst y) ->
  Forall (fun y : entry => k <= fst y) (rescheduled next_cycle [(k, x)]).
Proof.
  intros Hge. unfold rescheduled. simpl. rewrite app_nil_r.
  destruct (is_final_reset x); [|constructor].
  rewrite List.Forall_forall. intros y Hy. exact (Hge k x y Hy).
Qed.

(** What a finished run of the loop has done.  [new] is what this run
    fired after [fired]. *)
Lemma Update_loop_spec (now : time_t) (fuel : nat) :
  forall (fired : list entry) (s : t) (r : list entry * t),
    Update_loop next_cycle fuel now fired s = Some r ->
    ordered (m_resetTimeQueue s) ->
    exists new,
      fst r = fired ++ new
      /\ Forall (fun x : entry => fst x <= now) new
      /\ sublist (due_entries now (m_resetTimeQueue s)) new
      /\ ordered (m_resetTimeQueue (snd r))
      /\ Forall (fun y : entry => now < fst y) (m_resetTimeQueue (snd r))
      /\ Permutation (new ++ m_resetTimeQueue (snd r))
                     (m_resetTimeQueue s ++ rescheduled next_cycle new)
      /\ m_resetTimeByMapDifficulty (snd r) = m_resetTimeByMapDifficulty s
      /\ ((forall time e y, In y (next_cycle time e) -> time <= fst y) ->
          ordered new
          /\ forall lb, Forall (fun y : entry => lb <= fst y) (m_resetTimeQueue s) ->
                        Forall (fun x : entry => lb <= fst x) new).
Proof.
  induction fuel as [|fuel IH]; intros fired s r Hr Hord; [discriminate|].
  simpl in Hr. destruct (m_resetTimeQueue s) as [|[k x] q] eqn:Hq.
  - inversion Hr; subst r. exists []. simpl. rewrite Hq, !app_nil_r.
    repeat split; auto; constructor.
  - destruct (Z.leb_spec k now) as [Hk|Hk].
    + inversion Hord as [|? ? Hordq Hall]; subst.
      destruct (IH _ _ _ Hr) as
        (new & Hfst & Hdue & Hsub & Hord' & Hlate & Hperm & Htbl & Hasc).
      { apply process_ordered. exact Hordq. }
      exists ((k, x) :: new).
      split; [rewrite Hfst, <- app_assoc; reflexivity|].
      split; [constructor; [exact Hk|exact Hdue]|].
      split.
      { unfold due_entries at 1. simpl.
        destruct (Z.leb_spec k now) as [_|]; [|lia].
        apply sublist_skip. etransitivity; [|exact Hsub].
        apply due_entries_sublist.
        apply (process_sublist k x (with_queue q s)). }
      split; [exact Hord'|]. split; [exact Hlate|].
      split.
      { rewrite rescheduled_cons, <- !app_comm_cons.
        apply perm_skip. rewrite Hperm, process_perm.
        rewrite <- app_assoc. reflexivity. }
      split; [rewrite Htbl, process_table; reflexivity|].
      intros Hge. destruct (Hasc Hge) as [Hnew Hlb].
      assert (Hlow : Forall (fun y : entry => k <= fst y)
                       (m_resetTimeQueue (snd (process next_cycle k x (with_queue q s))))).
      { eapply Permutation_Forall; [symmetry; apply process_perm|].
        apply Forall_app. split; [exact Hall|apply rescheduled_not_before, Hge]. }
      split.
      * constructor; [exact Hnew|]. apply (Hlb k Hlow).
      * intros lb Hlb'. inversion Hlb' as [|? ? Hlbk _]; subst. simpl in Hlbk.
        constructor; [exact Hlbk|].
        eapply List.Forall_impl; [|apply (Hlb k Hlow)].
        intros a Ha. simpl in Ha. lia.
    + inversion Hr; subst r. exists []. simpl. rewrite Hq, !app_nil_r.
      assert (Hlate : Forall (fun y : entry => now < fst y) ((k, x) :: q)).
      { constructor; [simpl; lia|].
        inversion Hord as [|? ? _ Hall]; subst.
        eapply List.Forall_impl; [|exact Hall]. intros a Ha. simpl in Ha. lia. }
      split; [reflexivity|]. split; [constructor|].
      split.
      { exact (eq_ind_r (fun l : list entry => sublist l [])
                        (sublist_nil_l []) (due_entries_none now _ Hlate)). }
      split; [exact Hord|]. split; [exact Hlate|].
      split; [reflexivity|]. split; [reflexivity|].
      intros _. split; [constructor|]. intros lb _. constructor.
Qed.

(** C2. One call of [Update] returns (with enough fuel, and then with
    any larger amount) having fired every queue entry whose key is not
    after [now], however far behind [now] the oldest one is.  The entries
    that were queued and due are fired in the order of the queue, which is
    ascending in their keys; nothing fired is after [now], and the queue
    left behind is ordered and holds only entries after [now].  Nothing is
    lost or invented: the fired entries and the queue left behind are
    together the entries queued at the start and those scheduled for the
    next cycle by the final resets that fired.  The table is unchanged.
    When no next cycle holds an entry before the reset that scheduled it,
    the whole log of fired entries is ascending in key. *)
Theorem Update_fires_all_due (now : time_t) (s : t) :
  ordered (m_resetTimeQueue s) ->
  exists (fuel : nat) (fired : list entry) (s' : t),
    (forall n, (fuel <= n)%nat -> Update next_cycle n now s = Some (fired, s'))
    /\ (forall y, In y (m_resetTimeQueue s) -> fst y <= now -> In y fired)
    /\ sublist (due_entries now (m_resetTimeQueue s)) fired
    /\ ordered (due_entries now (m_resetTimeQueue s))
    /\ Forall (fun x : entry => fst x <= now) fired
    /\ Forall (fun y : entry => now < fst y) (m_resetTimeQueue s')
    /\ ordered (m_resetTimeQueue s')
    /\ Permutation (fired ++ m_resetTimeQueue s')
                   (m_resetTimeQueue s ++ rescheduled next_cycle fired)
    /\ m_resetTimeByMapDifficulty s' = m_resetTimeByMapDifficulty s
    /\ ((forall time e y, In y (next_cycle time e) -> time <= fst y) ->
        ordered fired).
Proof.
  intros Hord.
  destruct (Update_loop_terminates now
              (S (queue_cost next_cycle now (m_resetTimeQueue s))) [] s)
    as [[fired s'] Hr]; [apply Nat.lt_succ_diag_r|].
  destruct (Update_loop_spec now _ _ _ _ Hr Hord) as
    (new & Hfst & Hdue & Hsub & Hord' & Hlate & Hperm & Htbl & Hasc).
  simpl in Hfst, Hord', Hlate, Hperm, Htbl. subst new.
  exists (S (queue_cost next_cycle now (m_resetTimeQueue s))), fired, s'.
  split.
  { intros n Hn. unfold Update.
    apply (Update_loop_fuel_mono now _ n [] s (fired, s') Hr Hn). }
  split.
  { intros y Hy Hynow.
    assert (Hin : In y (fired ++ m_resetTimeQueue s')).
    { eapply Permutation_in; [symmetry; exact Hperm|].
      apply in_or_app. now left. }
    apply in_app_or in Hin. destruct Hin as [Hin|Hin]; [exact Hin|].
    rewrite List.Forall_forall in Hlate. specialize (Hlate y Hin). lia. }
  split; [exact Hsub|].
  split; [apply due_entries_ordered, Hord|].
  split; [exact Hdue|]. split; [exact Hlate|]. split; [exact Hord'|].
  split; [exact Hperm|]. split; [exact Htbl|].
  intros Hge. apply (Hasc Hge).
Qed.

End UpdateProperties.

(** ** The queue stays ordered, and a worked run *)

Section QueueInvariant.

Import InstanceResetScheduler.

Lemma queue_remove_first_incl (e : InstanceResetEvent.t) (q : list entry)
    (y : entry) :
  In y (queue_remove_first e q) -> In y q.
Proof.
  induction q as [|[k x] q IH]; simpl; [auto|].
  destruct (InstanceResetEvent.eqb x e); simpl; intuition.
Qed.

Lemma queue_remove_first_ordered (e : InstanceResetEvent.t) (q : list entry) :
  ordered q -> ordered (queue_remove_first e q).
Proof.
  unfold ordered. induction 1 as [|[k x] q Hq IH Hall]; simpl; [constructor|].
  destruct (InstanceResetEvent.eqb x e); [assumption|].
  constructor; [assumption|].
  rewrite List.Forall_forall in Hall |- *. intros y Hy.
  apply Hall, (queue_remove_first_incl e q y Hy).
Qed.

(** Both forms of [ScheduleReset] keep the queue ordered by key, as a
    multimap is. *)
Lemma ScheduleReset_ordered (add : bool) (time : time_t)
    (e : InstanceResetEvent.t) (s : t) :
  ordered (m_resetTimeQueue s) ->
  ordered (m_resetTimeQueue (snd (ScheduleReset add time e s))).
Proof.
  intros H. unfold ScheduleReset. destruct add; simpl.
  - apply queue_insert_ordered, H.
  - apply queue_remove_first_ordered, H.
Qed.

Lemma short_cycle_final_later (time : time_t) (e : InstanceResetEvent.t)
    (x : entry) :
  In x (short_cycle time e) -> is_final_reset (snd x) = true -> time < fst x.
Proof.
  simpl. intros [<-|[<-|[]]]; simpl; [discriminate|lia].
Qed.

Lemma sample_scheduler_ordered : ordered (m_resetTimeQueue sample_scheduler).
Proof.
  unfold ordered. simpl.
  repeat (constructor; simpl; try lia).
Qed.

(** A tick at the final reset's deadline, well after the two earlier
    deadlines: all three entries fire, oldest first, and the queue is left
    with the next day's warning and reset. *)
Example Update_sample_run :
  Update daily_cycle 4 7200 sample_scheduler
  = Some ([(3600, raid_warning); (5000, dungeon_reset); (7200, raid_reset)],
          with_queue [(90000, raid_warning); (93600, raid_reset)]
            sample_scheduler).
Proof. vm_compute. reflexivity. Qed.

(** The tick of the spec's example: at the first warning's deadline only
    that warning fires. *)
Example Update_sample_first_warning :
  Update daily_cycle 2 3600 sample_scheduler
  = Some ([(3600, raid_warning)],
          with_queue [(5000, dungeon_reset); (7200, raid_reset)]
            sample_scheduler).
Proof. vm_compute. reflexivity. Qed.

(** A late tick under the short cycle: the three queued entries fire in
    the order of their keys, then the warning that the fired reset
    scheduled for a time already past; the next reset stays queued. *)
Example Update_short_cycle_run :
  Update short_cycle 5 7200 sample_scheduler
  = Some ([(3600, raid_warning); (5000, dungeon_reset); (7200, raid_reset);
           (5400, raid_warning)],
          with_queue [(9000, raid_reset)] sample_scheduler).
Proof. vm_compute. reflexivity. Qed.

End QueueInvariant.

Lemma Update_fires_all_due_witness :
  exists (fuel : nat) (fired : list InstanceResetScheduler.entry)
         (s' : InstanceResetScheduler.t),
    (forall n, (fuel <= n)%nat ->
       InstanceResetScheduler.Update short_cycle n 7200 sample_scheduler
       = Some (fired, s'))
    /\ (forall y, In y (InstanceResetScheduler.m_resetTimeQueue sample_scheduler) ->
                  fst y <= 7200 -> In y fired)
    /\ sublist (InstanceResetScheduler.due_entries 7200
                  (InstanceResetScheduler.m_resetTimeQueue sample_scheduler))
               fired
    /\ InstanceResetScheduler.ordered
         (InstanceResetScheduler.due_entries 7200
            (InstanceResetScheduler.m_resetTimeQueue sample_scheduler))
    /\ Forall (fun x : InstanceResetScheduler.entry => fst x <= 7200) fired
    /\ Forall (fun y : InstanceResetScheduler.entry => 7200 < fst y)
              (InstanceResetScheduler.m_resetTimeQueue s')
    /\ InstanceResetScheduler.ordered (InstanceResetScheduler.m_resetTimeQueue s')
    /\ Permutation (fired ++ InstanceResetScheduler.m_resetTimeQueue s')
         (InstanceResetScheduler.m_resetTimeQueue sample_scheduler
          ++ rescheduled short_cycle fired)
    /\ InstanceResetScheduler.m_resetTimeByMapDifficulty s'
       = InstanceResetScheduler.m_resetTimeByMapDifficulty sample_scheduler
    /\ ((forall time e y, In y (short_cycle time e) -> time <= fst y) ->
        InstanceResetScheduler.ordered fired).
Proof.
  exact (Update_fires_all_due short_cycle short_cycle_final_later 7200
           sample_scheduler sample_scheduler_ordered).
Defined.

(** * Further properties of the inline code *)

(** ** Reset events *)

Section EventProperties.

Import InstanceResetEvent.

Lemma event_eqb_sym (a b : t) : eqb a b = eqb b a.
Proof.
  unfold eqb.
  rewrite (Z.eqb_sym (mapid b)), (Z.eqb_sym (difficulty b)),
    (Z.eqb_sym (instanceId b)).
  reflexivity.
Qed.

(** [operator==] is an equivalence on events: every event equals itself,
    the two operands can be swapped, and equality chains. *)
Theorem event_equality_is_equivalence (a b c : t) :
  eqb a a = true
  /\ eqb a b = eqb b a
  /\ (eqb a b = true -> eqb b c = true -> eqb a c = true).
Proof.
  split; [apply event_eqb_refl|split; [apply event_eqb_sym|]].
  unfold eqb. rewrite !andb_true_iff, !Z.eqb_eq.
  intros ((H1 & H2) & H3) ((H4 & H5) & H6). repeat split; congruence.
Qed.

Lemma event_equality_is_equivalence_witness :
  eqb raid_warning raid_reset = true
  /\ eqb raid_reset (mk RESET_EVENT_INFORM_2 2 531 0) = true
  /\ eqb raid_warning (mk RESET_EVENT_INFORM_2 2 531 0) = true.
Proof.
  assert (H1 : eqb raid_warning raid_reset = true) by reflexivity.
  assert (H2 : eqb raid_reset (mk RESET_EVENT_INFORM_2 2 531 0) = true)
    by reflexivity.
  split; [exact H1|]. split; [exact H2|].
  exact (proj2 (proj2 (event_equality_is_equivalence raid_warning raid_reset
                         (mk RESET_EVENT_INFORM_2 2 531 0))) H1 H2).
Defined.

(** The constructor narrows each argument to its field: the map id to 16
    bits, the difficulty to 8 and the instance id to 32.  So two
    constructed events compare equal exactly when their map ids agree
    modulo 2^16, their difficulties agree modulo 2^8 and their instance
    ids agree modulo 2^32: map ids that share their low 16 bits are taken
    for the same map. *)
Theorem constructed_events_equal_modulo (ty ty' : ResetEventType)
    (m m' : Z) (d d' : Difficulty) (i i' : Z) :
  eqb (make ty m d i) (make ty' m' d' i') = true
  <-> m mod 65536 = m' mod 65536 /\ d mod 256 = d' mod 256
      /\ i mod 4294967296 = i' mod 4294967296.
Proof.
  unfold eqb, make, to_uint8, to_uint16, to_uint32. simpl.
  rewrite !andb_true_iff, !Z.eqb_eq. intuition congruence.
Qed.

Example constructed_events_confuse_map_ids :
  eqb (make RESET_EVENT_DUNGEON 1 0 42) (make RESET_EVENT_DUNGEON 65537 0 42)
  = true
  /\ eqb (make RESET_EVENT_DUNGEON 1 0 42) (make RESET_EVENT_DUNGEON 1 256 42)
     = true.
Proof. split; reflexivity. Qed.

(** The constructor keeps the type.  It keeps the difficulty exactly when
    the argument is below 2^8, the map id exactly when the argument is
    below 2^16 and the instance id exactly when the argument is below
    2^32; what it stores is always in range. *)
Theorem constructor_keeps_fields_in_range (ty : ResetEventType) (m : Z)
    (d : Difficulty) (i : Z) :
  type (make ty m d i) = ty
  /\ (difficulty (make ty m d i) = d <-> 0 <= d < 256)
  /\ (mapid (make ty m d i) = m <-> 0 <= m < 65536)
  /\ (instanceId (make ty m d i) = i <-> 0 <= i < 4294967296)
  /\ 0 <= difficulty (make ty m d i) < 256
  /\ 0 <= mapid (make ty m d i) < 65536
  /\ 0 <= instanceId (make ty m d i) < 4294967296.
Proof.
  unfold make, to_uint8, to_uint16, to_uint32. simpl.
  assert (0 <= d mod 256 < 256) by (apply Z.mod_pos_bound; lia).
  assert (0 <= m mod 65536 < 65536) by (apply Z.mod_pos_bound; lia).
  assert (0 <= i mod 4294967296 < 4294967296) by (apply Z.mod_pos_bound; lia).
  split; [reflexivity|].
  split; [|split; [|split; [|split; [|split]]]]; try assumption.
  - split; [intros Hd; rewrite <- Hd; assumption|apply Z.mod_small].
  - split; [intros Hm; rewrite <- Hm; assumption|apply Z.mod_small].
  - split; [intros Hi; rewrite <- Hi; assumption|apply Z.mod_small].
Qed.

(** Every enumerator of [ResetEventType] is below [MAX_RESET_EVENT_TYPE]
    and fits the 8-bit field that holds it; distinct enumerators have
    distinct values. *)
Theorem reset_event_types_are_numbered (a b : ResetEventType) :
  0 <= ResetEventType_value a < MAX_RESET_EVENT_TYPE
  /\ to_uint8 (ResetEventType_value a) = ResetEventType_value a
  /\ (ResetEventType_value a = ResetEventType_value b <-> a = b).
Proof.
  unfold MAX_RESET_EVENT_TYPE.
  split; [destruct a; simpl; lia|].
  split; [destruct a; reflexivity|].
  split; [|intros ->; reflexivity].
  destruct a, b; simpl; intros H; try reflexivity; discriminate H.
Qed.

End EventProperties.

(** ** The reset-time table *)

Section TableProperties.

Import InstanceResetScheduler.

Variable MAKE_PAIR32 : Z -> Z -> Z.

(** Of two writes for the same pair only the second is kept: the
    scheduler is the one the second write alone would leave. *)
Theorem SetResetTimeFor_last_write_wins (s : t) (mapid : Z) (d : Difficulty)
    (t1 t2 : time_t) :
  snd (seq (SetResetTimeFor MAKE_PAIR32 mapid d t1)
           (SetResetTimeFor MAKE_PAIR32 mapid d t2) s)
  = snd (SetResetTimeFor MAKE_PAIR32 mapid d t2 s).
Proof.
  unfold seq, bind, SetResetTimeFor. simpl.
  rewrite insert_insert_eq. reflexivity.
Qed.

(** Writes for pairs with different packed keys can be made in either
    order. *)
Theorem SetResetTimeFor_commutes (s : t) (mapid mapid' : Z)
    (d d' : Difficulty) (t1 t2 : time_t) :
  MAKE_PAIR32 mapid d <> MAKE_PAIR32 mapid' d' ->
  snd (seq (SetResetTimeFor MAKE_PAIR32 mapid d t1)
           (SetResetTimeFor MAKE_PAIR32 mapid' d' t2) s)
  = snd (seq (SetResetTimeFor MAKE_PAIR32 mapid' d' t2)
             (SetResetTimeFor MAKE_PAIR32 mapid d t1) s).
Proof.
  intros Hne. unfold seq, bind, SetResetTimeFor. simpl.
  rewrite insert_insert_ne by congruence. reflexivity.
Qed.

(** The table is reached through the packed key alone: two pairs with the
    same packed key read the same time, are written to the same entry, and
    a write for one is read back through the other. *)
Theorem packed_key_aliases (s : t) (mapid mapid' : Z) (d d' : Difficulty)
    (t0 : time_t) :
  MAKE_PAIR32 mapid d = MAKE_PAIR32 mapid' d' ->
  GetResetTimeFor MAKE_PAIR32 mapid d s = GetResetTimeFor MAKE_PAIR32 mapid' d' s
  /\ SetResetTimeFor MAKE_PAIR32 mapid d t0 s
     = SetResetTimeFor MAKE_PAIR32 mapid' d' t0 s
  /\ fst (seq (SetResetTimeFor MAKE_PAIR32 mapid d t0)
              (GetResetTimeFor MAKE_PAIR32 mapid' d') s) = t0.
Proof.
  intros Heq. unfold seq, bind, GetResetTimeFor, SetResetTimeFor. simpl.
  rewrite Heq, lookup_insert_eq. repeat split.
Qed.

(** Writing back the time just read changes no later read and leaves the
    queue alone; the scheduler itself is unchanged exactly when the pair
    had an entry, for otherwise the table gains an entry holding 0. *)
Theorem write_back_of_read (s : t) (mapid : Z) (d : Difficulty) :
  (forall (mapid' : Z) (d' : Difficulty),
     fst (GetResetTimeFor MAKE_PAIR32 mapid' d'
            (snd (bind (GetResetTimeFor MAKE_PAIR32 mapid d)
                       (SetResetTimeFor MAKE_PAIR32 mapid d) s)))
     = fst (GetResetTimeFor MAKE_PAIR32 mapid' d' s))
  /\ m_resetTimeQueue (snd (bind (GetResetTimeFor MAKE_PAIR32 mapid d)
                                 (SetResetTimeFor MAKE_PAIR32 mapid d) s))
     = m_resetTimeQueue s
  /\ (snd (bind (GetResetTimeFor MAKE_PAIR32 mapid d)
                (SetResetTimeFor MAKE_PAIR32 mapid d) s) = s
      <-> is_Some (m_resetTimeByMapDifficulty s !! MAKE_PAIR32 mapid d)).
Proof.
  unfold bind, GetResetTimeFor, SetResetTimeFor. simpl.
  split; [|split; [reflexivity|]].
  - intros mapid' d'.
    destruct (Z.eq_dec (MAKE_PAIR32 mapid' d') (MAKE_PAIR32 mapid d)) as [->|Hne].
    + rewrite lookup_insert_eq.
      destruct (m_resetTimeByMapDifficulty s !! MAKE_PAIR32 mapid d); reflexivity.
    + rewrite lookup_insert_ne by congruence. reflexivity.
  - split.
    + intros Hs.
      assert (Hl : m_resetTimeByMapDifficulty s !! MAKE_PAIR32 mapid d
                   = Some (match m_resetTimeByMapDifficulty s !! MAKE_PAIR32 mapid d with
                           | Some resetTime => resetTime
                           | None => 0
                           end)).
      { rewrite <- Hs at 1. simpl. apply lookup_insert_eq. }
      rewrite Hl. eexists. reflexivity.
    + intros [v Hv]. rewrite Hv, (insert_id _ _ _ Hv). destruct s; reflexivity.
Qed.

End TableProperties.

Lemma SetResetTimeFor_commutes_witness :
  snd (InstanceResetScheduler.seq
         (InstanceResetScheduler.SetResetTimeFor MAKE_PAIR32_packed 249 0 10)
         (InstanceResetScheduler.SetResetTimeFor MAKE_PAIR32_packed 531 2 20)
         sample_scheduler)
  = snd (InstanceResetScheduler.seq
           (InstanceResetScheduler.SetResetTimeFor MAKE_PAIR32_packed 531 2 20)
           (InstanceResetScheduler.SetResetTimeFor MAKE_PAIR32_packed 249 0 10)
           sample_scheduler).
Proof.
  apply (SetResetTimeFor_commutes MAKE_PAIR32_packed sample_scheduler
           249 531 0 2 10 20).
  vm_compute. discriminate.
Defined.

Lemma packed_key_aliases_witness :
  MAKE_PAIR32_packed 1 2 = MAKE_PAIR32_packed 65537 2
  /\ fst (InstanceResetScheduler.seq
            (InstanceResetScheduler.SetResetTimeFor MAKE_PAIR32_packed 1 2 99)
            (InstanceResetScheduler.GetResetTimeFor MAKE_PAIR32_packed 65537 2)
            sample_scheduler) = 99.
Proof.
  assert (H : MAKE_PAIR32_packed 1 2 = MAKE_PAIR32_packed 65537 2)
    by (vm_compute; reflexivity).
  split; [exact H|].
  exact (proj2 (proj2 (packed_key_aliases MAKE_PAIR32_packed sample_scheduler
                         1 65537 2 2 99 H))).
Defined.

(** ** The reference lists of a binding *)

Section ListProperties.

Import InstanceSave.

Lemma list_remove_app (x : Z) (l1 l2 : list Z) :
  list_remove x (l1 ++ l2) = list_remove x l1 ++ list_remove x l2.
Proof.
  induction l1 as [|y l1 IH]; simpl; [reflexivity|].
  destruct (y =? x); simpl; rewrite IH; reflexivity.
Qed.

Lemma list_remove_In (x y : Z) (l : list Z) :
  In y (list_remove x l) <-> In y l /\ y <> x.
Proof.
  induction l as [|z l IH]; simpl; [tauto|].
  destruct (Z.eqb_spec z x) as [->|Hne]; simpl; rewrite IH.
  - split; [tauto|]. intros [[<-|H] Hy]; [contradiction|tauto].
  - split; [|tauto]. intros [<-|H]; tauto.
Qed.

Lemma list_remove_fixed_iff (x : Z) (l : list Z) :
  list_remove x l = l <-> ~ In x l.
Proof.
  split; [|apply list_remove_absent].
  intros Heq Hin. rewrite <- Heq in Hin.
  apply list_remove_In in Hin. tauto.
Qed.

Lemma list_remove_filter (x : Z) (l : list Z) :
  list_remove x l = List.filter (fun y => negb (y =? x)) l.
Proof.
  induction l as [|y l IH]; simpl; [reflexivity|].
  destruct (y =? x); simpl; rewrite IH; reflexivity.
Qed.

Lemma list_remove_length (x : Z) (l : list Z) :
  (length (list_remove x l) + occurrences x l = length l)%nat.
Proof.
  induction l as [|y l IH]; simpl; [reflexivity|].
  destruct (y =? x); simpl; lia.
Qed.

Lemma occurrences_In (x : Z) (l : list Z) :
  In x l <-> (0 < occurrences x l)%nat.
Proof.
  induction l as [|y l IH]; simpl; [split; [tauto|lia]|].
  destruct (Z.eqb_spec y x) as [->|Hne].
  - split; [lia|tauto].
  - rewrite <- IH. split; [intros [H|H]; [contradiction|exact H]|tauto].
Qed.

Lemma list_remove_length_iff (x : Z) (l : list Z) :
  length (list_remove x l) = length l <-> ~ In x l.
Proof.
  pose proof (list_remove_length x l) as Hlen.
  rewrite occurrences_In. lia.
Qed.

Lemma list_remove_comm (x y : Z) (l : list Z) :
  list_remove x (list_remove y l) = list_remove y (list_remove x l).
Proof.
  induction l as [|z l IH]; simpl; [reflexivity|].
  destruct (z =? y) eqn:Ey, (z =? x) eqn:Ex; simpl;
    rewrite ?Ey, ?Ex, IH; reflexivity.
Qed.

(** Adding a handle and removing it again gives back the binding exactly
    when the handle was not in the list before: otherwise the removal
    also takes out the earlier occurrences. *)
Theorem add_then_remove_restores_iff_absent (b : t) (h : Z) :
  (fst (RemovePlayer h (AddPlayer h b)) = b <-> ~ In h (m_playerList b))
  /\ (fst (RemoveGroup h (AddGroup h b)) = b <-> ~ In h (m_groupList b)).
Proof.
  unfold RemovePlayer, AddPlayer, RemoveGroup, AddGroup.
  destruct b as [pl gl rt ii mi df cr ub]. simpl.
  unfold with_playerList, with_groupList. simpl.
  rewrite !list_remove_app. simpl. rewrite Z.eqb_refl, !app_nil_r.
  rewrite <- !list_remove_fixed_iff.
  split; split.
  - intros H. exact (f_equal m_playerList H).
  - intros ->. reflexivity.
  - intros H. exact (f_equal m_groupList H).
  - intros ->. reflexivity.
Qed.

Example add_then_remove_loses_earlier_reference :
  m_playerList (fst (RemovePlayer 7 (AddPlayer 7 solo_save))) = []
  /\ m_playerList solo_save = [7].
Proof. split; reflexivity. Qed.

(** [RemovePlayer] and [RemoveGroup] keep exactly the handles other than
    the removed one, in their original order. *)
Theorem remove_keeps_the_others_in_order (b : t) (h x : Z) :
  m_playerList (fst (RemovePlayer h b))
    = List.filter (fun y => negb (y =? h)) (m_playerList b)
  /\ m_groupList (fst (RemoveGroup h b))
    = List.filter (fun y => negb (y =? h)) (m_groupList b)
  /\ (In x (m_playerList (fst (RemovePlayer h b)))
      <-> In x (m_playerList b) /\ x <> h)
  /\ (In x (m_groupList (fst (RemoveGroup h b)))
      <-> In x (m_groupList b) /\ x <> h).
Proof.
  simpl. rewrite <- !list_remove_filter.
  split; [reflexivity|]. split; [reflexivity|].
  split; apply list_remove_In.
Qed.

(** A removal shortens the list by the number of occurrences of the
    handle, so the list never grows, and keeps its length exactly when the
    handle was absent. *)
Theorem remove_shortens_by_occurrences (b : t) (h : Z) :
  (length (m_playerList (fst (RemovePlayer h b)))
   + occurrences h (m_playerList b) = length (m_playerList b))%nat
  /\ (length (m_groupList (fst (RemoveGroup h b)))
      + occurrences h (m_groupList b) = length (m_groupList b))%nat
  /\ (length (m_playerList (fst (RemovePlayer h b))) = length (m_playerList b)
      <-> ~ In h (m_playerList b))
  /\ (length (m_groupList (fst (RemoveGroup h b))) = length (m_groupList b)
      <-> ~ In h (m_groupList b)).
Proof.
  simpl.
  split; [apply list_remove_length|]. split; [apply list_remove_length|].
  split; apply list_remove_length_iff.
Qed.

(** Removing twice is removing once, and two removals can be made in
    either order. *)
Theorem removals_commute_and_repeat (b : t) (h h' : Z) :
  fst (RemovePlayer h (fst (RemovePlayer h b))) = fst (RemovePlayer h b)
  /\ fst (RemoveGroup h (fst (RemoveGroup h b))) = fst (RemoveGroup h b)
  /\ fst (RemovePlayer h (fst (RemovePlayer h' b)))
     = fst (RemovePlayer h' (fst (RemovePlayer h b)))
  /\ fst (RemoveGroup h (fst (RemoveGroup h' b)))
     = fst (RemoveGroup h' (fst (RemoveGroup h b)))
  /\ fst (RemovePlayer h (fst (RemoveGroup h' b)))
     = fst (RemoveGroup h' (fst (RemovePlayer h b))).
Proof.
  unfold RemovePlayer, RemoveGroup, with_playerList, with_groupList. simpl.
  assert (Hidem : forall l, list_remove h (list_remove h l) = list_remove h l).
  { intros l. apply list_remove_absent. intros Hin.
    apply list_remove_In in Hin. tauto. }
  rewrite !Hidem.
  rewrite (list_remove_comm h h' (m_playerList b)).
  rewrite (list_remove_comm h h' (m_groupList b)).
  repeat split.
Qed.

End ListProperties.

(** ** Counters, setters and the independence of the two lists *)

Section BindingProperties.

Import InstanceSave.

(** The participant list and the group list do not interfere: a call on
    one list commutes with a call on the other and leaves the other
    list's counter alone, even when a participant and a group share the
    same handle value. *)
Theorem participant_and_group_lists_are_independent (b : t) (p g : Z) :
  AddPlayer p (AddGroup g b) = AddGroup g (AddPlayer p b)
  /\ fst (RemovePlayer p (AddGroup g b)) = AddGroup g (fst (RemovePlayer p b))
  /\ fst (RemoveGroup g (AddPlayer p b)) = AddPlayer p (fst (RemoveGroup g b))
  /\ m_groupList (fst (RemovePlayer p (AddGroup p b))) = m_groupList b ++ [p]
  /\ m_playerList (fst (RemoveGroup g (AddPlayer g b))) = m_playerList b ++ [g]
  /\ GetGroupCount (AddPlayer p b) = GetGroupCount b
  /\ GetGroupCount (fst (RemovePlayer p b)) = GetGroupCount b
  /\ GetPlayerCount (AddGroup g b) = GetPlayerCount b
  /\ GetPlayerCount (fst (RemoveGroup g b)) = GetPlayerCount b.
Proof. repeat split. Qed.

(** Participants added one after another are appended in call order, and
    the counter advances by their number modulo 256. *)
Theorem adding_in_sequence_appends (ps : list Z) (b : t) :
  m_playerList (fold_left (fun acc p => AddPlayer p acc) ps b)
    = m_playerList b ++ ps
  /\ m_groupList (fold_left (fun acc g => AddGroup g acc) ps b)
    = m_groupList b ++ ps
  /\ GetPlayerCount (fold_left (fun acc p => AddPlayer p acc) ps b)
    = (GetPlayerCount b + Z.of_nat (length ps)) mod 256
  /\ GetGroupCount (fold_left (fun acc g => AddGroup g acc) ps b)
    = (GetGroupCount b + Z.of_nat (length ps)) mod 256.
Proof.
  assert (Hp : forall ps b, m_playerList (fold_left (fun acc p => AddPlayer p acc) ps b)
                            = m_playerList b ++ ps).
  { clear. induction ps as [|p ps IH]; intros b; simpl.
    - rewrite app_nil_r. reflexivity.
    - rewrite IH. simpl. rewrite <- app_assoc. reflexivity. }
  assert (Hg : forall ps b, m_groupList (fold_left (fun acc g => AddGroup g acc) ps b)
                            = m_groupList b ++ ps).
  { clear. induction ps as [|p ps IH]; intros b; simpl.
    - rewrite app_nil_r. reflexivity.
    - rewrite IH. simpl. rewrite <- app_assoc. reflexivity. }
  unfold GetPlayerCount, GetGroupCount, to_uint8.
  rewrite Hp, Hg, !length_app, !Nat2Z.inj_add, !Z.add_mod_idemp_l by lia.
  repeat split.
Qed.

Lemma to_uint8_exact_iff (n : nat) :
  to_uint8 (Z.of_nat n) = Z.of_nat n <-> (n <= 255)%nat.
Proof.
  unfold to_uint8. split.
  - intros H. assert (0 <= Z.of_nat n mod 256 < 256) by (apply Z.mod_pos_bound; lia).
    lia.
  - intros H. apply Z.mod_small. lia.
Qed.

(** The counters are always between 0 and 255, and a counter is the true
    length of its list exactly when the list holds at most 255 handles;
    one more participant advances the counter by one modulo 256, so the
    256th makes it read 0. *)
Theorem counts_exact_up_to_255 (b : t) (p : Z) :
  0 <= GetPlayerCount b <= 255
  /\ 0 <= GetGroupCount b <= 255
  /\ (GetPlayerCount b = Z.of_nat (length (m_playerList b))
      <-> (length (m_playerList b) <= 255)%nat)
  /\ (GetGroupCount b = Z.of_nat (length (m_groupList b))
      <-> (length (m_groupList b) <= 255)%nat)
  /\ GetPlayerCount (AddPlayer p b) = (GetPlayerCount b + 1) mod 256
  /\ GetGroupCount (AddGroup p b) = (GetGroupCount b + 1) mod 256.
Proof.
  unfold GetPlayerCount, GetGroupCount.
  assert (Hr : forall n, 0 <= to_uint8 n <= 255).
  { intros n. unfold to_uint8.
    assert (0 <= n mod 256 < 256) by (apply Z.mod_pos_bound; lia). lia. }
  split; [apply Hr|]. split; [apply Hr|].
  split; [apply to_uint8_exact_iff|]. split; [apply to_uint8_exact_iff|].
  simpl. unfold to_uint8.
  rewrite !length_app, !Nat2Z.inj_add, !Z.add_mod_idemp_l by lia.
  split; reflexivity.
Qed.

(** [SetResetTime] and [SetCanReset] are read back by their getters, keep
    only the last value written, write back what was read without effect,
    and commute with each other and with each of [AddPlayer], [AddGroup],
    [RemovePlayer] and [RemoveGroup]; each leaves every field other than
    its own as it was. *)
Theorem setters_change_one_field (b : t) (rt rt' : time_t) (cr cr' : bool)
    (h : Z) :
  GetResetTime (SetResetTime rt b) = rt
  /\ CanReset (SetCanReset cr b) = cr
  /\ SetResetTime rt (SetResetTime rt' b) = SetResetTime rt b
  /\ SetCanReset cr (SetCanReset cr' b) = SetCanReset cr b
  /\ SetResetTime (GetResetTime b) b = b
  /\ SetCanReset (CanReset b) b = b
  /\ SetResetTime rt (SetCanReset cr b) = SetCanReset cr (SetResetTime rt b)
  /\ SetResetTime rt (AddPlayer h b) = AddPlayer h (SetResetTime rt b)
  /\ SetResetTime rt (AddGroup h b) = AddGroup h (SetResetTime rt b)
  /\ SetCanReset cr (AddPlayer h b) = AddPlayer h (SetCanReset cr b)
  /\ SetCanReset cr (AddGroup h b) = AddGroup h (SetCanReset cr b)
  /\ fst (RemovePlayer h (SetResetTime rt b))
     = SetResetTime rt (fst (RemovePlayer h b))
  /\ fst (RemoveGroup h (SetResetTime rt b))
     = SetResetTime rt (fst (RemoveGroup h b))
  /\ fst (RemovePlayer h (SetCanReset cr b))
     = SetCanReset cr (fst (RemovePlayer h b))
  /\ fst (RemoveGroup h (SetCanReset cr b))
     = SetCanReset cr (fst (RemoveGroup h b))
  /\ GetResetTime (SetCanReset cr b) = GetResetTime b
  /\ CanReset (SetResetTime rt b) = CanReset b
  /\ m_playerList (SetResetTime rt b) = m_playerList b
  /\ m_playerList (SetCanReset cr b) = m_playerList b
  /\ m_groupList (SetResetTime rt b) = m_groupList b
  /\ m_groupList (SetCanReset cr b) = m_groupList b
  /\ m_instanceid (SetResetTime rt b) = m_instanceid b
  /\ m_instanceid (SetCanReset cr b) = m_instanceid b
  /\ m_mapid (SetResetTime rt b) = m_mapid b
  /\ m_mapid (SetCanReset cr b) = m_mapid b
  /\ m_difficulty (SetResetTime rt b) = m_difficulty b
  /\ m_difficulty (SetCanReset cr b) = m_difficulty b
  /\ m_usedByMap (SetResetTime rt b) = m_usedByMap b
  /\ m_usedByMap (SetCanReset cr b) = m_usedByMap b.
Proof. destruct b. repeat split. Qed.

End BindingProperties.

(** ** The registry's counter *)

Section RegistryCounter.

Import InstanceSaveManager.

(** [GetNumInstanceSaves] is below 2^32 and is the number of registered
    instance ids exactly when that number is below 2^32.  Storing a
    binding under an id that is already registered leaves it unchanged;
    under a new id it advances by one modulo 2^32. *)
Theorem GetNumInstanceSaves_counts_ids (m : t) (instanceId : Z)
    (save : InstanceSave.t) :
  0 <= GetNumInstanceSaves m < 4294967296
  /\ (GetNumInstanceSaves m = Z.of_nat (size (m_instanceSaveById m))
      <-> Z.of_nat (size (m_instanceSaveById m)) < 4294967296)
  /\ GetNumInstanceSaves
       (mk (lock_instLists m) (<[instanceId := save]> (m_instanceSaveById m))
           (m_Scheduler m) (saved_to_db m))
     = match m_instanceSaveById m !! instanceId with
       | Some _ => GetNumInstanceSaves m
       | None => (GetNumInstanceSaves m + 1) mod 4294967296
       end.
Proof.
  unfold GetNumInstanceSaves, to_uint32. simpl.
  assert (Hb : 0 <= Z.of_nat (size (m_instanceSaveById m)) mod 4294967296
               < 4294967296) by (apply Z.mod_pos_bound; lia).
  split; [exact Hb|]. split.
  - split; [intros H; rewrite <- H; apply Hb|intros H; apply Z.mod_small; lia].
  - rewrite map_size_insert.
    destruct (m_instanceSaveById m !! instanceId); simpl; [reflexivity|].
    rewrite Nat2Z.inj_succ, <- Z.add_1_r, Z.add_mod_idemp_l by lia.
    reflexivity.
Qed.

End RegistryCounter.

(** ** The map-loaded flag and the 0 answer of the table *)

Section FlagAndSentinel.

(** [SetUsedByMapState] writes the flag and no other field: the last
    state written is the one kept; both lists, their counters, the reset
    time, the instance id, the map id, the difficulty and the reset
    permission are as before; and the call commutes with the calls on the
    lists. *)
Theorem SetUsedByMapState_writes_the_flag_only (b : InstanceSave.t)
    (state state' : bool) (h : Z) :
  InstanceSave.m_usedByMap (fst (InstanceSave.SetUsedByMapState state b)) = state
  /\ fst (InstanceSave.SetUsedByMapState state
            (fst (InstanceSave.SetUsedByMapState state' b)))
     = fst (InstanceSave.SetUsedByMapState state b)
  /\ InstanceSave.m_playerList (fst (InstanceSave.SetUsedByMapState state b))
     = InstanceSave.m_playerList b
  /\ InstanceSave.m_groupList (fst (InstanceSave.SetUsedByMapState state b))
     = InstanceSave.m_groupList b
  /\ InstanceSave.m_resetTime (fst (InstanceSave.SetUsedByMapState state b))
     = InstanceSave.m_resetTime b
  /\ InstanceSave.m_instanceid (fst (InstanceSave.SetUsedByMapState state b))
     = InstanceSave.m_instanceid b
  /\ InstanceSave.m_mapid (fst (InstanceSave.SetUsedByMapState state b))
     = InstanceSave.m_mapid b
  /\ InstanceSave.m_difficulty (fst (InstanceSave.SetUsedByMapState state b))
     = InstanceSave.m_difficulty b
  /\ InstanceSave.m_canReset (fst (InstanceSave.SetUsedByMapState state b))
     = InstanceSave.m_canReset b
  /\ InstanceSave.GetPlayerCount (fst (InstanceSave.SetUsedByMapState state b))
     = InstanceSave.GetPlayerCount b
  /\ InstanceSave.GetGroupCount (fst (InstanceSave.SetUsedByMapState state b))
     = InstanceSave.GetGroupCount b
  /\ fst (InstanceSave.SetUsedByMapState state (InstanceSave.AddPlayer h b))
     = InstanceSave.AddPlayer h (fst (InstanceSave.SetUsedByMapState state b))
  /\ fst (InstanceSave.SetUsedByMapState state (InstanceSave.AddGroup h b))
     = InstanceSave.AddGroup h (fst (InstanceSave.SetUsedByMapState state b))
  /\ fst (InstanceSave.SetUsedByMapState state
            (fst (InstanceSave.RemovePlayer h b)))
     = fst (InstanceSave.RemovePlayer h
              (fst (InstanceSave.SetUsedByMapState state b)))
  /\ fst (InstanceSave.SetUsedByMapState state
            (fst (InstanceSave.RemoveGroup h b)))
     = fst (InstanceSave.RemoveGroup h
              (fst (InstanceSave.SetUsedByMapState state b))).
Proof. destruct state, state'; repeat split. Qed.

Variable MAKE_PAIR32 : Z -> Z -> Z.

(** The answer 0 of [GetResetTimeFor] does not tell a missing entry from
    a stored 0: the answer is 0 exactly in these two cases, and any other
    answer is the time stored for the pair. *)
Theorem GetResetTimeFor_zero_is_ambiguous (s : InstanceResetScheduler.t)
    (mapid : Z) (d : Difficulty) :
  (fst (InstanceResetScheduler.GetResetTimeFor MAKE_PAIR32 mapid d s) = 0
   <-> InstanceResetScheduler.m_resetTimeByMapDifficulty s
         !! MAKE_PAIR32 mapid d = None
       \/ InstanceResetScheduler.m_resetTimeByMapDifficulty s
            !! MAKE_PAIR32 mapid d = Some 0)
  /\ (fst (InstanceResetScheduler.GetResetTimeFor MAKE_PAIR32 mapid d s) <> 0
      <-> InstanceResetScheduler.m_resetTimeByMapDifficulty s
            !! MAKE_PAIR32 mapid d
          = Some (fst (InstanceResetScheduler.GetResetTimeFor MAKE_PAIR32
                         mapid d s))
          /\ fst (InstanceResetScheduler.GetResetTimeFor MAKE_PAIR32 mapid d s)
             <> 0).
Proof.
  unfold InstanceResetScheduler.GetResetTimeFor. simpl.
  destruct (InstanceResetScheduler.m_resetTimeByMapDifficulty s
              !! MAKE_PAIR32 mapid d) as [v|].
  - split; split.
    + intros ->. now right.
    + intros [H|H]; [discriminate|congruence].
    + intros H. split; [reflexivity|exact H].
    + intros [_ H]. exact H.
  - split; split.
    + intros _. now left.
    + reflexivity.
    + intros H. contradiction.
    + intros [H _]. discriminate.
Qed.

End FlagAndSentinel.

Example stored_zero_reads_as_missing :
  fst (InstanceResetScheduler.GetResetTimeFor MAKE_PAIR32_packed 531 2
         (snd (InstanceResetScheduler.SetResetTimeFor MAKE_PAIR32_packed 531 2 0
                 sample_scheduler)))
  = fst (InstanceResetScheduler.GetResetTimeFor MAKE_PAIR32_packed 249 0
           sample_scheduler).
Proof. vm_compute. reflexivity. Qed.
